(** * live-qr-generator: the QR generator page, embedded and verified

    A shallow embedding of [client/src/pages/qr-generator.tsx]:

    - [JS]: the JavaScript primitives the page relies on (string trimming,
      [indexOf], [Math.max], [Math.floor] on IEEE doubles);
    - [Compressor]: [getBase64PayloadBytes] and the iterative loop of
      [compressImageToSize];
    - [Page]: the component state, content resolution ([generateVCard],
      [getQRContent], [hasValidContent]), rendering and export
      ([generateQRCode], [downloadQRCode]) and the image handlers and
      effects as an event-driven transition system.

    JavaScript numbers that hold integers (pixel sizes, byte counts,
    attempt counters) are [Z]; the encoding quality, whose rounding decides
    how many attempts a quality sweep takes, is a binary64 [float].
    Strings are [string]s of code units below 256. *)

From Stdlib Require Import ZArith Floats List String Ascii Bool Lia DecimalString.
Import ListNotations.

Set Warnings "-inexact-float".

#[local] Open Scope string_scope.
#[local] Open Scope Z_scope.

(* ================================================================= *)
(** ** JavaScript primitives *)

Module JS.

(** The line feed, written ['\n'] in the source. *)
Definition LF : ascii := ascii_of_nat 10.
Definition nl : string := String LF EmptyString.

(** White space and line terminators removed by [String.prototype.trim],
    restricted to code units below 256: TAB, LF, VT, FF, CR, SP, NBSP. *)
Definition isWhiteSpace (c : ascii) : bool :=
  let n := nat_of_ascii c in
  existsb (Nat.eqb n) [9; 10; 11; 12; 13; 32; 160]%nat.

Fixpoint trimStart (s : string) : string :=
  match s with
  | EmptyString => EmptyString
  | String c r => if isWhiteSpace c then trimStart r else s
  end.

Fixpoint trimEnd (s : string) : string :=
  match s with
  | EmptyString => EmptyString
  | String c r =>
      match trimEnd r with
      | EmptyString => if isWhiteSpace c then EmptyString else String c EmptyString
      | r' => String c r'
      end
  end.

Definition trim (s : string) : string := trimEnd (trimStart s).

(** [s.length] *)
Definition strlen (s : string) : Z := Z.of_nat (String.length s).

(** Truthiness of a string: non-empty. *)
Definition truthy (s : string) : bool :=
  match s with EmptyString => false | String _ _ => true end.

(** [s.indexOf(pat)]: [None] stands for [-1]. *)
Definition indexOf (s pat : string) : option nat := String.index 0 pat s.

(** [s.substring(from)] *)
Definition substring_from (from : nat) (s : string) : string :=
  String.substring from (String.length s - from) s.

(** [s.startsWith(pat)] *)
Definition startsWith (s pat : string) : bool := String.prefix pat s.

(** [(s.match(/=/g) || []).length]: the number of ['='] in [s]. *)
Fixpoint countEquals (s : string) : Z :=
  match s with
  | EmptyString => 0
  | String c r => (if Ascii.eqb c "="%char then 1 else 0) + countEquals r
  end.

(** Decimal rendering of an integer inside a template literal. *)
Definition decimal (z : Z) : string := NilZero.string_of_int (Z.to_int z).

#[local] Open Scope float_scope.

(** [Math.max(a, b)] on doubles: NaN is contagious, and [+0] is larger
    than [-0]. *)
Definition Math_max (a b : float) : float :=
  if is_nan a || is_nan b then nan
  else if a <? b then b
  else if b <? a then a
  else if is_zero a then a + b else a.

(** The double holding the integer [z] (exact for [0 <= z < 2^53]). *)
Definition number_of_Z (z : Z) : float := of_uint63 (Uint63.of_Z z).

(** [Math.floor(x)] for a finite double, as an integer. *)
Definition Math_floor (x : float) : Z :=
  match Prim2SF x with
  | S754_finite false m e =>
      if (0 <=? e)%Z then Z.shiftl (Zpos m) e else Z.shiftr (Zpos m) (- e)
  | S754_finite true m e =>
      if (0 <=? e)%Z then - Z.shiftl (Zpos m) e
      else - Z.shiftr (Zpos m - 1) (- e) - 1
  | _ => 0%Z
  end.

End JS.

(* ================================================================= *)
(** ** The browser *)

(** What the page asks of its environment.  [Bitmap] is a decoded image
    ([HTMLImageElement] after [onload]); [toDataURL bmp w h q] is the data
    URL [canvas.toDataURL('image/jpeg', q)] returns after
    [ctx.drawImage(bmp, 0, 0, w, h)] on a [w] by [h] canvas. *)
Class Browser : Type := {
  Bitmap : Type;
  bitmap_width : Bitmap -> N;
  bitmap_height : Bitmap -> N;
  toDataURL : Bitmap -> Z -> Z -> float -> string;
  (** whether [canvas.getContext('2d')] yields a context on a new canvas *)
  getContext2d : bool;
  File : Type;
  file_type : File -> string;
  file_size : File -> Z;
  (** [Object.is] on two [File] objects; an object is itself *)
  same_file : File -> File -> bool;
  same_file_refl : forall f, same_file f f = true;
  (** the image behind a file: [None] when [img.onerror] fires *)
  decode : File -> option Bitmap;
  createObjectURL : File -> string;
  (** whether [new URL(s)] returns rather than throws *)
  parsesAsURL : string -> bool
}.

(* ================================================================= *)
(** ** The adaptive image compressor *)

Module Compressor.
Import JS.

(** Helper function to calculate actual base64 payload bytes.  The
    arithmetic [(len - padding) * 3 / 4] is exact on doubles at these
    magnitudes, so it is done on integers with flooring division. *)
Definition getBase64PayloadBytes (dataUrl : string) : Z :=
  match indexOf dataUrl "base64," with
  | None => strlen dataUrl
  | Some base64Index =>
      let base64Data := substring_from (base64Index + 7) dataUrl in
      let padding := countEquals base64Data in
      (strlen base64Data - padding) * 3 / 4
  end.

(** The mutable locals of [img.onload]. *)
Record Vars : Type := mkVars {
  width : Z;
  height : Z;
  quality : float;
  attempts : Z
}.

Definition maxAttempts : Z := 50.

(** The error a rejected promise carries. *)
Inductive CompressError : Type :=
| TooLarge (payloadBytes maxSizeBytes : Z)
| FailedToLoad.

Definition message (e : CompressError) : string :=
  match e with
  | TooLarge payloadBytes maxSizeBytes =>
      "Image too large for QR embedding (" ++ decimal payloadBytes
        ++ " bytes > " ++ decimal maxSizeBytes
        ++ " bytes limit). Please use Link mode instead."
  | FailedToLoad => "Failed to load image"
  end.

(** The state a promise ends in; [Pending] is a promise that is never
    settled. *)
Inductive Promise : Type :=
| Resolved (dataUrl : string)
| Rejected (e : CompressError)
| Pending.

(** What one call of [compress] does last. *)
Inductive Next : Type :=
| Settle (p : Promise)        (* [resolve]/[reject], then [return] *)
| Timeout (v : Vars)          (* [setTimeout(compress, 5)] *)
| Return.                     (* falls off the end: [ctx] is null *)

(** [Math.max(24, Math.floor(side * 0.9))]: the product is a double
    product, [Math.floor] brings it back to an integer. *)
Definition shrink (side : Z) : Z :=
  Z.max 24 (Math_floor (number_of_Z side * 0.9)%float).

Section Loop.

Context {B : Browser}.
Variable img : Bitmap.
Variable maxSizeBytes : Z.

(** One call of [compress], entered with the locals [v]. *)
Definition compress (v : Vars) : Next :=
  let attempts := attempts v + 1 in
  if getContext2d then
    let dataUrl := toDataURL img (width v) (height v) (quality v) in
    let payloadBytes := getBase64PayloadBytes dataUrl in
    if (payloadBytes <=? maxSizeBytes) || (attempts >=? maxAttempts)
       || ((width v <=? 24) && (quality v <=? 0.05)%float)
    then
      if payloadBytes >? maxSizeBytes
      then Settle (Rejected (TooLarge payloadBytes maxSizeBytes))
      else Settle (Resolved dataUrl)
    else if (0.05 <? quality v)%float
    then Timeout (mkVars (width v) (height v)
                         (Math_max 0.05 (quality v - 0.05))%float attempts)
    else Timeout (mkVars (shrink (width v)) (shrink (height v)) 0.5%float attempts)
  else Return.

(** The chain of [compress] calls linked by [setTimeout], with the locals
    each call was entered with.  [None]: the fuel ran out first. *)
Fixpoint compress_loop (fuel : nat) (v : Vars) : option (list Vars * Promise) :=
  match fuel with
  | O => None
  | S fuel' =>
      match compress v with
      | Settle p => Some ([v], p)
      | Return => Some ([v], Pending)
      | Timeout v' =>
          match compress_loop fuel' v' with
          | Some (calls, p) => Some (v :: calls, p)
          | None => None
          end
      end
  end.

(** The locals as [img.onload] initialises them. *)
Definition initial : Vars :=
  mkVars (Z.min (Z.of_N (bitmap_width img)) 128)
         (Z.min (Z.of_N (bitmap_height img)) 128) 0.5%float 0.

End Loop.

(** [compressImageToSize(file, maxSizeBytes)]: the [compress] calls made
    and the state the returned promise ends in.  The loop is given
    [maxAttempts] units of fuel, which are never used up. *)
Definition compressImageToSize {B : Browser} (file : File) (maxSizeBytes : Z)
  : option (list Vars * Promise) :=
  match decode file with
  | None => Some ([], Rejected FailedToLoad)
  | Some img => compress_loop img maxSizeBytes (Z.to_nat maxAttempts) (initial img)
  end.

End Compressor.

(* ================================================================= *)
(** ** The page component *)

Module Page.
Import JS Compressor.

Inductive InputType : Type := text | url | contact | image.
Inductive ImageMode : Type := link | embed.
Inductive ExportFormat : Type := png | jpeg | svg.

Record ContactInfo : Type := mkContactInfo {
  name : string;
  phone : string;
  email : string;
  organization : string
}.

Definition generateVCard (info : ContactInfo) : string :=
  let vcard := "BEGIN:VCARD" ++ nl ++ "VERSION:3.0" ++ nl in
  let vcard := if truthy (name info)
               then vcard ++ ("FN:" ++ name info ++ nl) else vcard in
  let vcard := if truthy (organization info)
               then vcard ++ ("ORG:" ++ organization info ++ nl) else vcard in
  let vcard := if truthy (phone info)
               then vcard ++ ("TEL:" ++ phone info ++ nl) else vcard in
  let vcard := if truthy (email info)
               then vcard ++ ("EMAIL:" ++ email info ++ nl) else vcard in
  vcard ++ "END:VCARD".

(** The options object handed to the [qrcode] library. *)
Inductive Level : Type := L | M | Q | H.

Record Options : Type := mkOptions {
  opt_type : option string;
  opt_width : Z;
  opt_margin : Z;
  opt_errorCorrectionLevel : Level;
  color_dark : string;
  color_light : string
}.

(** A canvas element: its size and whether [getContext('2d')] yields a
    context. *)
Record Canvas : Type := mkCanvas {
  canvas_width : Z;
  canvas_height : Z;
  canvas_2d : bool
}.

(** What rendering and export do to the outside, in program order. *)
Inductive Action : Type :=
| setQrCodeGenerated_to (b : bool)
| clearRect (x y w h : Z)
| QRCode_toCanvas (onscreen : bool) (content : string) (o : Options)
| QRCode_toString (content : string) (o : Options)
| toast (title : string)
| save_as (filename : string).

(** The encoder calls among the actions, with the options of each. *)
Definition encoder_call (a : Action) : option (string * Options) :=
  match a with
  | QRCode_toCanvas _ content o => Some (content, o)
  | QRCode_toString content o => Some (content, o)
  | _ => None
  end.

Section Component.

Context {B : Browser}.

(** Whether the [qrcode] library throws on this content and options. *)
Variable qr_throws : string -> Options -> bool.

(** The [useState] cells. *)
Record State : Type := mkState {
  inputType : InputType;
  textContent : string;
  urlContent : string;
  contactInfo : ContactInfo;
  qrColor : string;
  bgColor : string;
  qrSize : Z;
  exportFormat : ExportFormat;
  exportResolution : Z;
  qrCodeGenerated : bool;
  urlError : string;
  imageMode : ImageMode;
  imageUrl : string;
  imageFile : option File;
  imagePreview : string;
  embedDataUrl : string;
  imageUrlError : string;
  imageFileError : string;
  isCompressing : bool
}.

Definition initialState : State :=
  mkState text "" "" (mkContactInfo "" "" "" "") "#000000" "#ffffff" 300
          png 300 false "" link "" None "" "" "" "" false.

Definition setInputType (v : InputType) (s : State) : State :=
  mkState v (textContent s) (urlContent s) (contactInfo s) (qrColor s)
    (bgColor s) (qrSize s) (exportFormat s) (exportResolution s)
    (qrCodeGenerated s) (urlError s) (imageMode s) (imageUrl s)
    (imageFile s) (imagePreview s) (embedDataUrl s) (imageUrlError s)
    (imageFileError s) (isCompressing s).

Definition setTextContent (v : string) (s : State) : State :=
  mkState (inputType s) v (urlContent s) (contactInfo s) (qrColor s)
    (bgColor s) (qrSize s) (exportFormat s) (exportResolution s)
    (qrCodeGenerated s) (urlError s) (imageMode s) (imageUrl s)
    (imageFile s) (imagePreview s) (embedDataUrl s) (imageUrlError s)
    (imageFileError s) (isCompressing s).

Definition setUrlContent (v : string) (s : State) : State :=
  mkState (inputType s) (textContent s) v (contactInfo s) (qrColor s)
    (bgColor s) (qrSize s) (exportFormat s) (exportResolution s)
    (qrCodeGenerated s) (urlError s) (imageMode s) (imageUrl s)
    (imageFile s) (imagePreview s) (embedDataUrl s) (imageUrlError s)
    (imageFileError s) (isCompressing s).

Definition setContactInfo (v : ContactInfo) (s : State) : State :=
  mkState (inputType s) (textContent s) (urlContent s) v (qrColor s)
    (bgColor s) (qrSize s) (exportFormat s) (exportResolution s)
    (qrCodeGenerated s) (urlError s) (imageMode s) (imageUrl s)
    (imageFile s) (imagePreview s) (embedDataUrl s) (imageUrlError s)
    (imageFileError s) (isCompressing s).

Definition setQrColor (v : string) (s : State) : State :=
  mkState (inputType s) (textContent s) (urlContent s) (contactInfo s) v
    (bgColor s) (qrSize s) (exportFormat s) (exportResolution s)
    (qrCodeGenerated s) (urlError s) (imageMode s) (imageUrl s)
    (imageFile s) (imagePreview s) (embedDataUrl s) (imageUrlError s)
    (imageFileError s) (isCompressing s).

Definition setBgColor (v : string) (s : State) : State :=
  mkState (inputType s) (textContent s) (urlContent s) (contactInfo s)
    (qrColor s) v (qrSize s) (exportFormat s) (exportResolution s)
    (qrCodeGenerated s) (urlError s) (imageMode s) (imageUrl s)
    (imageFile s) (imagePreview s) (embedDataUrl s) (imageUrlError s)
    (imageFileError s) (isCompressing s).

Definition setQrSize (v : Z) (s : State) : State :=
  mkState (inputType s) (textContent s) (urlContent s) (contactInfo s)
    (qrColor s) (bgColor s) v (exportFormat s) (exportResolution s)
    (qrCodeGenerated s) (urlError s) (imageMode s) (imageUrl s)
    (imageFile s) (imagePreview s) (embedDataUrl s) (imageUrlError s)
    (imageFileError s) (isCompressing s).

Definition setQrCodeGenerated (v : bool) (s : State) : State :=
  mkState (inputType s) (textContent s) (urlContent s) (contactInfo s)
    (qrColor s) (bgColor s) (qrSize s) (exportFormat s) (exportResolution s)
    v (urlError s) (imageMode s) (imageUrl s) (imageFile s) (imagePreview s)
    (embedDataUrl s) (imageUrlError s) (imageFileError s) (isCompressing s).

Definition setUrlError (v : string) (s : State) : State :=
  mkState (inputType s) (textContent s) (urlContent s) (contactInfo s)
    (qrColor s) (bgColor s) (qrSize s) (exportFormat s) (exportResolution s)
    (qrCodeGenerated s) v (imageMode s) (imageUrl s) (imageFile s)
    (imagePreview s) (embedDataUrl s) (imageUrlError s) (imageFileError s)
    (isCompressing s).

Definition setImageMode (v : ImageMode) (s : State) : State :=
  mkState (inputType s) (textContent s) (urlContent s) (contactInfo s)
    (qrColor s) (bgColor s) (qrSize s) (exportFormat s) (exportResolution s)
    (qrCodeGenerated s) (urlError s) v (imageUrl s) (imageFile s)
    (imagePreview s) (embedDataUrl s) (imageUrlError s) (imageFileError s)
    (isCompressing s).

Definition setImageUrl (v : string) (s : State) : State :=
  mkState (inputType s) (textContent s) (urlContent s) (contactInfo s)
    (qrColor s) (bgColor s) (qrSize s) (exportFormat s) (exportResolution s)
    (qrCodeGenerated s) (urlError s) (imageMode s) v (imageFile s)
    (imagePreview s) (embedDataUrl s) (imageUrlError s) (imageFileError s)
    (isCompressing s).

Definition setImageFile (v : option File) (s : State) : State :=
  mkState (inputType s) (textContent s) (urlContent s) (contactInfo s)
    (qrColor s) (bgColor s) (qrSize s) (exportFormat s) (exportResolution s)
    (qrCodeGenerated s) (urlError s) (imageMode s) (imageUrl s) v
    (imagePreview s) (embedDataUrl s) (imageUrlError s) (imageFileError s)
    (isCompressing s).

Definition setImagePreview (v : string) (s : State) : State :=
  mkState (inputType s) (textContent s) (urlContent s) (contactInfo s)
    (qrColor s) (bgColor s) (qrSize s) (exportFormat s) (exportResolution s)
    (qrCodeGenerated s) (urlError s) (imageMode s) (imageUrl s)
    (imageFile s) v (embedDataUrl s) (imageUrlError s) (imageFileError s)
    (isCompressing s).

Definition setEmbedDataUrl (v : string) (s : State) : State :=
  mkState (inputType s) (textContent s) (urlContent s) (contactInfo s)
    (qrColor s) (bgColor s) (qrSize s) (exportFormat s) (exportResolution s)
    (qrCodeGenerated s) (urlError s) (imageMode s) (imageUrl s)
    (imageFile s) (imagePreview s) v (imageUrlError s) (imageFileError s)
    (isCompressing s).

Definition setImageUrlError (v : string) (s : State) : State :=
  mkState (inputType s) (textContent s) (urlContent s) (contactInfo s)
    (qrColor s) (bgColor s) (qrSize s) (exportFormat s) (exportResolution s)
    (qrCodeGenerated s) (urlError s) (imageMode s) (imageUrl s)
    (imageFile s) (imagePreview s) (embedDataUrl s) v (imageFileError s)
    (isCompressing s).

Definition setImageFileError (v : string) (s : State) : State :=
  mkState (inputType s) (textContent s) (urlContent s) (contactInfo s)
    (qrColor s) (bgColor s) (qrSize s) (exportFormat s) (exportResolution s)
    (qrCodeGenerated s) (urlError s) (imageMode s) (imageUrl s)
    (imageFile s) (imagePreview s) (embedDataUrl s) (imageUrlError s) v
    (isCompressing s).

Definition setIsCompressing (v : bool) (s : State) : State :=
  mkState (inputType s) (textContent s) (urlContent s) (contactInfo s)
    (qrColor s) (bgColor s) (qrSize s) (exportFormat s) (exportResolution s)
    (qrCodeGenerated s) (urlError s) (imageMode s) (imageUrl s)
    (imageFile s) (imagePreview s) (embedDataUrl s) (imageUrlError s)
    (imageFileError s) v.

Definition validateURL (u : string) (s : State) : State :=
  if negb (truthy (trim u)) then setUrlError "" s
  else if parsesAsURL u then setUrlError "" s
  else setUrlError "Please enter a valid URL" s.

(** [validateImageURL(url)]: the pair [(isValid, error)]. *)
Definition validateImageURL (u : string) : bool * string :=
  if negb (truthy (trim u)) then (false, "")
  else if parsesAsURL u then (true, "")
  else (false, "Please enter a valid URL").

Definition getQRContent (s : State) : string :=
  match inputType s with
  | text => trim (textContent s)
  | url => trim (urlContent s)
  | contact => generateVCard (contactInfo s)
  | image =>
      match imageMode s with
      | link => trim (imageUrl s)
      | embed => embedDataUrl s
      end
  end.

Definition isValidURL (u : string) : bool :=
  if negb (truthy (trim u)) then false else parsesAsURL u.

Definition hasValidContent (s : State) : bool :=
  match inputType s with
  | text => strlen (trim (textContent s)) >? 0
  | url => (strlen (trim (urlContent s)) >? 0) && isValidURL (urlContent s)
  | contact =>
      (strlen (trim (name (contactInfo s))) >? 0)
      || (strlen (trim (phone (contactInfo s))) >? 0)
      || (strlen (trim (email (contactInfo s))) >? 0)
  | image =>
      match imageMode s with
      | link => (strlen (trim (imageUrl s)) >? 0) && negb (truthy (imageUrlError s))
      | embed =>
          (strlen (embedDataUrl s) >? 0) && negb (isCompressing s)
          && negb (truthy (imageFileError s))
      end
  end.

(** [generateQRCode()], with [canvasRef.current] as an argument. *)
Definition generateQRCode (s : State) (canvasRef : option Canvas) : list Action :=
  let content := getQRContent s in
  if negb (truthy content) || negb (hasValidContent s) then
    setQrCodeGenerated_to false ::
    match canvasRef with
    | Some c =>
        if canvas_2d c then [clearRect 0 0 (canvas_width c) (canvas_height c)]
        else []
    | None => []
    end
  else
    match canvasRef with
    | Some c =>
        (* Use lower error correction level for embedded images to maximize
           capacity *)
        let errorCorrectionLevel :=
          match inputType s, imageMode s with
          | image, embed => L
          | _, _ => M
          end in
        let o := mkOptions None (qrSize s) 2 errorCorrectionLevel
                           (qrColor s) (bgColor s) in
        QRCode_toCanvas true content o ::
        (if qr_throws content o then [toast "Generation Failed"]
         else [setQrCodeGenerated_to true])
    | None => []
    end.

(** [downloadQRCode()], with [canvasRef.current] as an argument. *)
Definition downloadQRCode (s : State) (canvasRef : option Canvas) : list Action :=
  if negb (qrCodeGenerated s) then [toast "No QR Code"]
  else
    let content := getQRContent s in
    if negb (truthy content) then []
    else
      (* Use same error correction level as display *)
      let errorCorrectionLevel :=
        match inputType s, imageMode s with
        | image, embed => L
        | _, _ => M
        end in
      let finish (calls : list Action) (filename : string) : list Action :=
        (calls ++ [save_as filename; toast "Download Complete"])%list in
      match exportFormat s with
      | svg =>
          let o := mkOptions (Some "svg") (exportResolution s) 2
                             errorCorrectionLevel (qrColor s) (bgColor s) in
          if qr_throws content o
          then [QRCode_toString content o; toast "Download Failed"]
          else finish [QRCode_toString content o] "qrcode.svg"
      | jpeg =>
          match canvasRef with
          | None => []
          | Some _ =>
              let o := mkOptions None (exportResolution s) 2
                                 errorCorrectionLevel (qrColor s) (bgColor s) in
              if qr_throws content o
              then [QRCode_toCanvas false content o; toast "Download Failed"]
              else finish [QRCode_toCanvas false content o] "qrcode.jpg"
          end
      | png =>
          match canvasRef with
          | None => []
          | Some _ =>
              if negb (exportResolution s =? qrSize s) then
                let o := mkOptions None (exportResolution s) 2
                                   errorCorrectionLevel (qrColor s) (bgColor s) in
                if qr_throws content o
                then [QRCode_toCanvas false content o; toast "Download Failed"]
                else finish [QRCode_toCanvas false content o] "qrcode.png"
              else finish [] "qrcode.png"
          end
      end.

(** *** The image handlers and effects as a transition system

    A world is the component state together with the [compressImageToSize]
    promises that are still awaited by a [processImageFile] call, oldest
    first.  Rendering (the effect that calls [generateQRCode]) is left out
    of the transitions: it writes [qrCodeGenerated] and the canvas only. *)

Record World : Type := mkWorld {
  ui : State;
  inflight : list File
}.

Definition initialWorld : World := mkWorld initialState [].

(** [processImageFile(file)] up to its [await]; [closure] is the state of
    the render the function was created in.  An exception of
    [URL.createObjectURL] is not modelled. *)
Definition processImageFile (closure : State) (file : File) (w : World) : World :=
  let s := setIsCompressing false (setImageFileError "" (ui w)) in
  if negb (startsWith (file_type file) "image/") then
    mkWorld (setImageFileError "Please select an image file" s) (inflight w)
  else if file_size file >? 5 * 1024 * 1024 then
    mkWorld (setImageFileError "Image must be smaller than 5MB" s) (inflight w)
  else
    let s := setImageFile (Some file) (setImagePreview (createObjectURL file) s) in
    match imageMode closure with
    | embed => mkWorld (setIsCompressing true s) (inflight w ++ [file])
    | link => mkWorld s (inflight w)
    end.

(** The rest of [processImageFile] once the awaited promise has settled. *)
Definition processImageFile_resume (p : Promise) (s : State) : State :=
  match p with
  | Resolved compressedDataUrl =>
      setIsCompressing false (setEmbedDataUrl compressedDataUrl s)
  | Rejected compressionError =>
      setEmbedDataUrl ""
        (setIsCompressing false (setImageFileError (message compressionError) s))
  | Pending => s
  end.

Fixpoint remove_nth {A : Type} (k : nat) (l : list A) : list A :=
  match l, k with
  | [], _ => []
  | _ :: r, O => r
  | a :: r, S k' => a :: remove_nth k' r
  end.

Inductive Event : Type :=
| ClickType (t : InputType)
| ChangeText (v : string)
| ChangeUrl (v : string)
| ChangeName (v : string)
| ChangePhone (v : string)
| ChangeEmail (v : string)
| ChangeOrganization (v : string)
| ClickLinkMode
| ClickEmbedMode
| ChangeImageUrl (v : string)
| BlurImageUrl
| ChooseFile (file : File)
| DropFile (file : File)
| ChangeQrColor (v : string)
| ChangeBgColor (v : string)
| ClickSize (px : Z)
| Settles (k : nat).          (* the [k]-th awaited promise settles *)

Definition InputType_eqb (a b : InputType) : bool :=
  match a, b with
  | text, text | url, url | contact, contact | image, image => true
  | _, _ => false
  end.

Definition ImageMode_eqb (a b : ImageMode) : bool :=
  match a, b with
  | link, link | embed, embed => true
  | _, _ => false
  end.

Definition same_imageFile (a b : option File) : bool :=
  match a, b with
  | None, None => true
  | Some f, Some g => same_file f g
  | _, _ => false
  end.

(** The control an event comes from is on the page. *)
Definition rendered (s : State) (ev : Event) : bool :=
  match ev with
  | ChangeText _ => InputType_eqb (inputType s) text
  | ChangeUrl _ => InputType_eqb (inputType s) url
  | ChangeName _ | ChangePhone _ | ChangeEmail _ | ChangeOrganization _ =>
      InputType_eqb (inputType s) contact
  | ClickLinkMode | ClickEmbedMode => InputType_eqb (inputType s) image
  | ChangeImageUrl _ | BlurImageUrl =>
      InputType_eqb (inputType s) image && ImageMode_eqb (imageMode s) link
  | ChooseFile _ | DropFile _ =>
      InputType_eqb (inputType s) image && ImageMode_eqb (imageMode s) embed
  | _ => true
  end.

(** The event handlers, and the continuation of an awaited promise. *)
Definition handle (ev : Event) (w : World) : World :=
  let s := ui w in
  let set (s' : State) := mkWorld s' (inflight w) in
  match ev with
  | ClickType t => set (setInputType t s)
  | ChangeText v => set (setTextContent v s)
  | ChangeUrl v => set (setUrlContent v s)
  | ChangeName v =>
      let c := contactInfo s in
      set (setContactInfo (mkContactInfo v (phone c) (email c) (organization c)) s)
  | ChangePhone v =>
      let c := contactInfo s in
      set (setContactInfo (mkContactInfo (name c) v (email c) (organization c)) s)
  | ChangeEmail v =>
      let c := contactInfo s in
      set (setContactInfo (mkContactInfo (name c) (phone c) v (organization c)) s)
  | ChangeOrganization v =>
      let c := contactInfo s in
      set (setContactInfo (mkContactInfo (name c) (phone c) (email c) v) s)
  | ClickLinkMode =>
      (* Clear embed-specific state when switching to link mode *)
      set (setImageFileError ""
            (setEmbedDataUrl ""
              (setImagePreview "" (setImageFile None (setImageMode link s)))))
  | ClickEmbedMode =>
      (* Clear URL-specific state when switching to embed mode *)
      set (setImageUrlError "" (setImageUrl "" (setImageMode embed s)))
  | ChangeImageUrl v => set (setImageUrl v s)
  | BlurImageUrl => set (setImageUrlError (snd (validateImageURL (imageUrl s))) s)
  | ChooseFile file => processImageFile s file w
  | DropFile file =>
      if startsWith (file_type file) "image/" then processImageFile s file w else w
  | ChangeQrColor v => set (setQrColor v s)
  | ChangeBgColor v => set (setBgColor v s)
  | ClickSize px => set (setQrSize px s)
  | Settles k =>
      match nth_error (inflight w) k with
      | None => w
      | Some file =>
          match compressImageToSize file 1000 with
          | Some (_, Pending) | None => w
          | Some (_, p) =>
              mkWorld (processImageFile_resume p s) (remove_nth k (inflight w))
          end
      end
  end.

(** The [useEffect] hooks whose dependencies differ between the previous
    render [prev] and the current one.  No hook changes a dependency of a
    hook ([processImageFile] sets [imageFile] to the file it already
    holds), so one round of them reaches the next stable render. *)
Definition effects (prev : State) (w : World) : World :=
  let cur := ui w in
  let inputType_changed := negb (InputType_eqb (inputType prev) (inputType cur)) in
  let imageMode_changed := negb (ImageMode_eqb (imageMode prev) (imageMode cur)) in
  let w :=
    if negb (String.eqb (urlContent prev) (urlContent cur)) || inputType_changed then
      match inputType cur with
      | url => mkWorld (validateURL (urlContent cur) (ui w)) (inflight w)
      | _ => w
      end
    else w in
  let w :=
    if negb (String.eqb (imageUrl prev) (imageUrl cur)) || inputType_changed
       || imageMode_changed then
      match inputType cur, imageMode cur with
      | image, link =>
          mkWorld (setImageUrlError (snd (validateImageURL (imageUrl cur))) (ui w))
                  (inflight w)
      | _, _ => w
      end
    else w in
  if imageMode_changed || negb (same_imageFile (imageFile prev) (imageFile cur)) then
    match inputType cur, imageMode cur, imageFile cur with
    | image, embed, Some file =>
        if negb (truthy (embedDataUrl cur)) then processImageFile cur file w else w
    | _, _, _ => w
    end
  else w.

Definition step (w : World) (ev : Event) : World :=
  if rendered (ui w) ev then effects (ui w) (handle ev w) else w.

Definition run (w : World) (evs : list Event) : World := fold_left step evs w.

(** Selecting a file, by either control. *)
Definition selects_file (ev : Event) : bool :=
  match ev with
  | ChooseFile _ | DropFile _ => true
  | _ => false
  end.

End Component.

End Page.

(* ================================================================= *)
(** ** A small browser to run the page in *)

Module Demo.
Import JS Compressor Page.

Fixpoint replicate (n : nat) (s : string) : string :=
  match n with
  | O => EmptyString
  | S n' => s ++ replicate n' s
  end.

(** Images are their sizes, files are the images they hold, and the encoder
    spends three payload bytes on every four pixels, whatever the
    quality. *)
#[local] Instance browser : Browser := {|
  Bitmap := N * N;
  bitmap_width := fst;
  bitmap_height := snd;
  toDataURL := fun _ w h _ =>
    "data:image/jpeg;base64," ++ replicate (Z.to_nat (w * h / 4)) "AAAA";
  getContext2d := true;
  File := N * N;
  file_type := fun _ => "image/png";
  file_size := fun _ => 4096;
  same_file := fun a b => (fst a =? fst b)%N && (snd a =? snd b)%N;
  same_file_refl := fun f =>
    andb_true_intro (conj (N.eqb_refl (fst f)) (N.eqb_refl (snd f)));
  decode := fun f => Some f;
  createObjectURL := fun _ => "blob:preview";
  parsesAsURL := fun s => String.prefix "https://" s
|}.

(** The same browser without a 2D context. *)
Definition browser_without_2d : Browser := {|
  Bitmap := N * N;
  bitmap_width := fst;
  bitmap_height := snd;
  toDataURL := fun _ w h _ =>
    "data:image/jpeg;base64," ++ replicate (Z.to_nat (w * h / 4)) "AAAA";
  getContext2d := false;
  File := N * N;
  file_type := fun _ => "image/png";
  file_size := fun _ => 4096;
  same_file := fun a b => (fst a =? fst b)%N && (snd a =? snd b)%N;
  same_file_refl := fun f =>
    andb_true_intro (conj (N.eqb_refl (fst f)) (N.eqb_refl (snd f)));
  decode := fun f => Some f;
  createObjectURL := fun _ => "blob:preview";
  parsesAsURL := fun s => String.prefix "https://" s
|}.

Definition never_throws (content : string) (o : Options) : bool := false.

Definition icon : N * N := (8, 8)%N.
Definition logo : N * N := (16, 16)%N.
Definition banner : N * N := (20, 128)%N.

Definition payload (f : N * N) : string :=
  "data:image/jpeg;base64,"
  ++ replicate (N.to_nat (fst f * snd f / 4)) "AAAA".

(** The user picks the image type and the embed mode and chooses [icon];
    the handler and the effect on [imageFile] each start a compression. *)
Definition icon_chosen : World :=
  run initialWorld [ClickType image; ClickEmbedMode; ChooseFile icon].

(** The first of the two compressions has settled: the payload is shown. *)
Definition icon_embedded : World := step icon_chosen (Settles 0).

(** Then [logo] is chosen while the second compression of [icon] is still
    awaited. *)
Definition logo_chosen : World := step icon_chosen (ChooseFile logo).

Definition canvas : Canvas := mkCanvas 300 300 true.

End Demo.

(* ================================================================= *)
(** ** Vocabulary of the statements *)

Module Spec.
Import JS Compressor Page.

(** The qualities one sweep goes through: [0.5] and the ten values
    [Math.max(0.05, quality - 0.05)] produces from it.  Rounding leaves the
    tenth value just above [0.05], so the floor is the eleventh. *)
Fixpoint lower (n : nat) (q : float) : list float :=
  match n with
  | O => [q]
  | S n' => q :: lower n' (Math_max 0.05 (q - 0.05))%float
  end.

Definition sweep : list float := lower 10 0.5%float.

(** The locals stay in the range [img.onload] starts them in. *)
Definition sane (v : Vars) : Prop :=
  0 <= width v <= 128 /\ 0 <= height v <= 128 /\ In (quality v) sweep.

(** The payload size [compress] measures when entered with [v]. *)
Definition payloadAt {B : Browser} (img : Bitmap) (v : Vars) : Z :=
  getBase64PayloadBytes (toDataURL img (width v) (height v) (quality v)).

(** A sequence of values does not increase for as long as it stays above
    its floor: between two positions with nothing but values above the
    floor from the first up to the second, the later value is at most the
    earlier one. *)
Definition non_increasing_until_floor {A : Type}
    (le : A -> A -> Prop) (above_floor : A -> Prop) (l : list A) : Prop :=
  forall i j a b, (i <= j)%nat ->
    nth_error l i = Some a -> nth_error l j = Some b ->
    (forall k c, (i <= k < j)%nat -> nth_error l k = Some c -> above_floor c) ->
    le b a.

Definition float_le (a b : float) : Prop := (a <=? b)%float = true.

(** The contact block as the specification words it: framing lines around
    one line per present field, in the order full name, organization,
    phone, email, joined by line feeds. *)
Fixpoint join (sep : string) (l : list string) : string :=
  match l with
  | [] => ""
  | [x] => x
  | x :: r => x ++ sep ++ join sep r
  end.

Definition present (label value : string) : list string :=
  if truthy value then [label ++ ":" ++ value] else [].

Definition data_lines (info : ContactInfo) : list string :=
  (present "FN" (name info) ++ present "ORG" (organization info)
   ++ present "TEL" (phone info) ++ present "EMAIL" (email info))%list.

Definition vcard_block (info : ContactInfo) : string :=
  join nl (["BEGIN:VCARD"; "VERSION:3.0"] ++ data_lines info ++ ["END:VCARD"])%list.

Definition filled (value : string) : nat := if truthy value then 1 else 0.

(** The lines of a text: its pieces between line feeds. *)
Fixpoint lines (s : string) : list string :=
  match s with
  | EmptyString => [""]
  | String c r =>
      if Ascii.eqb c LF then "" :: lines r
      else match lines r with
           | [] => [String c ""]
           | l :: ls => String c l :: ls
           end
  end.

Fixpoint single_line (s : string) : bool :=
  match s with
  | EmptyString => true
  | String c r => negb (Ascii.eqb c LF) && single_line r
  end.

(** The encoder calls of a list of actions. *)
Definition no_encoder_call (actions : list Action) : Prop :=
  forall a, In a actions -> encoder_call a = None.

(** Nothing of an embedded image is left: no file, no preview, no payload,
    no compression under way. *)
Definition discarded {B : Browser} (w : World) : Prop :=
  inflight w = [] /\ imageFile (ui w) = None
  /\ imagePreview (ui w) = "" /\ embedDataUrl (ui w) = "".

End Spec.

(* ================================================================= *)
(** ** Base64, as the data URLs of the canvas use it *)

Module Base64.
Import JS.

Definition alphabet : string :=
  "ABCDEFGHIJKLMNOPQRSTUVWXYZabcdefghijklmnopqrstuvwxyz0123456789+/".

(** The character of a six-bit value. *)
Definition digit (n : N) : ascii :=
  match String.get (N.to_nat n) alphabet with
  | Some c => c
  | None => "A"%char
  end.

(** Three bytes give four characters; a last group of one or two bytes is
    padded with ['=']. *)
Fixpoint encode (bytes : list Byte.byte) : string :=
  match bytes with
  | [] => ""
  | [a] =>
      let x := Byte.to_N a in
      String (digit (x / 4)) (String (digit (x mod 4 * 16)) "==")
  | [a; b] =>
      let x := Byte.to_N a in
      let y := Byte.to_N b in
      String (digit (x / 4))
        (String (digit (x mod 4 * 16 + y / 16))
           (String (digit (y mod 16 * 4)) "="))
  | a :: b :: c :: rest =>
      let x := Byte.to_N a in
      let y := Byte.to_N b in
      let z := Byte.to_N c in
      String (digit (x / 4))
        (String (digit (x mod 4 * 16 + y / 16))
           (String (digit (y mod 16 * 4 + z / 64))
              (String (digit (z mod 64)) (encode rest))))
  end%N.

End Base64.

(* ================================================================= *)
(** ** The attempts the loop is bound to make, and stable renders *)

Module Schedule.
Import JS Compressor Page Spec.

(** A side after [n] shrinkings. *)
Fixpoint shrinks (n : nat) (side : Z) : Z :=
  match n with
  | O => side
  | S n' => shrink (shrinks n' side)
  end.

(** The locals of call number [i] (from 0) when every call before it was
    above the budget: sweeps of eleven qualities, one shrinking between
    two sweeps. *)
Definition scheduled (width0 height0 : Z) (i : nat) : Vars :=
  mkVars (shrinks (i / 11) width0) (shrinks (i / 11) height0)
         (nth (i mod 11) sweep 0.5%float) (Z.of_nat i).

(** The file name an export is saved under. *)
Definition filename (format : ExportFormat) : string :=
  match format with
  | png => "qrcode.png"
  | jpeg => "qrcode.jpg"
  | svg => "qrcode.svg"
  end.

(** A file [processImageFile] turns down. *)
Definition turned_down {B : Browser} (file : File) : bool :=
  negb (startsWith (file_type file) "image/") || (file_size file >? 5 * 1024 * 1024).

(** What the renders between two events keep true of a world reached from
    the initial one. *)
Record stable {B : Browser} (w : World) : Prop := {
  payload_fits : getBase64PayloadBytes (embedDataUrl (ui w)) <= 1000;
  link_has_no_file :
    imageMode (ui w) = link ->
    imageFile (ui w) = None /\ imagePreview (ui w) = "";
  embed_has_no_url :
    imageMode (ui w) = embed ->
    imageUrl (ui w) = "" /\ imageUrlError (ui w) = "";
  compressing_is_awaited :
    isCompressing (ui w) = true -> inflight w <> [];
  urlError_in_step :
    inputType (ui w) = url ->
    urlError (ui w) = snd (validateImageURL (urlContent (ui w)));
  imageUrlError_in_step :
    inputType (ui w) = image -> imageMode (ui w) = link ->
    imageUrlError (ui w) = snd (validateImageURL (imageUrl (ui w)))
}.

End Schedule.

(* ================================================================= *)
(** ** A browser whose files differ in type and size *)

Module Uploads.
Import JS Compressor Page.

(** A file is its MIME type and its size; every image decodes to an 8 by
    8 bitmap of 48 payload bytes. *)
#[local] Instance browser : Browser := {|
  Bitmap := unit;
  bitmap_width := fun _ => 8%N;
  bitmap_height := fun _ => 8%N;
  toDataURL := fun _ _ _ _ => "data:image/jpeg;base64," ++ Demo.replicate 16 "AAAA";
  getContext2d := true;
  File := string * Z;
  file_type := fst;
  file_size := snd;
  same_file := fun a b => String.eqb (fst a) (fst b) && (snd a =? snd b);
  same_file_refl := fun f =>
    andb_true_intro (conj (String.eqb_refl (fst f)) (Z.eqb_refl (snd f)));
  decode := fun _ => Some tt;
  createObjectURL := fun _ => "blob:preview";
  parsesAsURL := fun s => String.prefix "https://" s
|}.

Definition notes : string * Z := ("text/plain", 120).
Definition poster : string * Z := ("image/png", 6000000).

(** The image type and the embed mode are picked. *)
Definition embed_picked : World :=
  run initialWorld [ClickType image; ClickEmbedMode].

(** In the first small browser: a code shown at 200 pixels, to be exported
    as a PNG at 300 pixels. *)
Definition shown_at_200 : @State Demo.browser :=
  setQrSize 200 (setQrCodeGenerated true (setTextContent "Hello" initialState)).

End Uploads.

(* ================================================================= *)
(** ** The three hooks of [effects], one by one *)

Module Hooks.
Import JS Compressor Page.

Section Hooks.

Context {B : Browser}.

(** [useEffect(() => { if (inputType === 'url') validateURL(urlContent) },
    [urlContent, inputType])] *)
Definition effect_validateURL (prev cur s : State) : State :=
  if negb (String.eqb (urlContent prev) (urlContent cur))
     || negb (InputType_eqb (inputType prev) (inputType cur))
  then match inputType cur with
       | url => validateURL (urlContent cur) s
       | _ => s
       end
  else s.

(** The hook on [[imageUrl, inputType, imageMode]]. *)
Definition effect_imageUrlError (prev cur s : State) : State :=
  if negb (String.eqb (imageUrl prev) (imageUrl cur))
     || negb (InputType_eqb (inputType prev) (inputType cur))
     || negb (ImageMode_eqb (imageMode prev) (imageMode cur))
  then match inputType cur, imageMode cur with
       | image, link =>
           setImageUrlError (snd (validateImageURL (imageUrl cur))) s
       | _, _ => s
       end
  else s.

(** The hook on [[imageMode, imageFile]]. *)
Definition effect_processImageFile (prev cur : State) (w : World) : World :=
  if negb (ImageMode_eqb (imageMode prev) (imageMode cur))
     || negb (same_imageFile (imageFile prev) (imageFile cur))
  then match inputType cur, imageMode cur, imageFile cur with
       | image, embed, Some file =>
           if negb (truthy (embedDataUrl cur))
           then processImageFile cur file w else w
       | _, _, _ => w
       end
  else w.

End Hooks.

End Hooks.

(* ================================================================= *)
(** ** The render effect of a commit *)

Module Commit.
Import JS Compressor Page.

Section Commit.

Context {B : Browser}.
Variable qr_throws : string -> Options -> bool.

(** The handlers that call [setContactInfo]: each gives it a new object,
    which [Object.is] tells from the one before. *)
Definition replaces_contactInfo (ev : Event) : bool :=
  match ev with
  | ChangeName _ | ChangePhone _ | ChangeEmail _ | ChangeOrganization _ => true
  | _ => false
  end.

(** Whether a dependency of the hook
    [useEffect(() => { generateQRCode() }, [textContent, urlContent,
    contactInfo, imageUrl, embedDataUrl, qrColor, bgColor, qrSize,
    inputType, imageMode])] differs between two renders.  The error texts,
    [isCompressing] and [imageFile] are not among them. *)
Definition render_deps_changed (contactInfo_replaced : bool)
    (prev cur : State) : bool :=
  negb (String.eqb (textContent prev) (textContent cur))
  || negb (String.eqb (urlContent prev) (urlContent cur))
  || contactInfo_replaced
  || negb (String.eqb (imageUrl prev) (imageUrl cur))
  || negb (String.eqb (embedDataUrl prev) (embedDataUrl cur))
  || negb (String.eqb (qrColor prev) (qrColor cur))
  || negb (String.eqb (bgColor prev) (bgColor cur))
  || negb (qrSize prev =? qrSize cur)
  || negb (InputType_eqb (inputType prev) (inputType cur))
  || negb (ImageMode_eqb (imageMode prev) (imageMode cur)).

(** What the render hook does after an event.  The updates of the handler
    make one render; the render hook is the first hook of its commit and
    calls the [generateQRCode] of that render, which reads the state the
    handler left: the hooks of [effects] have not written yet.  Their
    writes make a second render, of which the render hook is again the
    first hook. *)
Definition render_after (w : World) (ev : Event) (canvasRef : option Canvas)
  : list Action :=
  if rendered (ui w) ev then
    let cur := ui (handle ev w) in
    let settled := ui (effects (ui w) (handle ev w)) in
    ((if render_deps_changed (replaces_contactInfo ev) (ui w) cur
      then generateQRCode qr_throws cur canvasRef else [])
     ++ (if render_deps_changed false cur settled
         then generateQRCode qr_throws settled canvasRef else []))%list
  else [].

End Commit.

End Commit.

(* ================================================================= *)
(** * Properties of the compressor *)

Import JS Compressor Page Spec.

(** ** The quality sweep and the shrinking of a side *)

Example sweep_values :
  sweep = [0.5; 0.45; 0.4; 0.35000000000000003; 0.30000000000000004;
           0.25000000000000006; 0.20000000000000007; 0.15000000000000008;
           0.10000000000000007; 0.05000000000000007; 0.05]%float.
Proof. vm_compute. reflexivity. Qed.

(** Case analysis on a quality of the sweep, and membership of a computed
    quality in it. *)
Ltac sweep_cases H :=
  vm_compute in H;
  repeat (destruct H as [H | H]; [symmetry in H; subst | ]);
  [ .. | contradiction H ].

Ltac in_sweep := vm_compute; repeat (first [left; reflexivity | right]).

Lemma sweep_lowered q :
  In q sweep -> (0.05 <? q)%float = true ->
  In (Math_max 0.05 (q - 0.05))%float sweep
  /\ (Math_max 0.05 (q - 0.05) <=? q)%float = true.
Proof.
  intros Hq Hlt. sweep_cases Hq;
    first [ discriminate Hlt | split; [in_sweep | vm_compute; reflexivity] ].
Qed.

Lemma sweep_leb_trans a b c :
  In a sweep -> In b sweep -> In c sweep ->
  (b <=? a)%float = true -> (c <=? b)%float = true -> (c <=? a)%float = true.
Proof.
  intros Ha Hb Hc.
  assert (H : forallb (fun a => forallb (fun b => forallb (fun c =>
            implb (b <=? a)%float (implb (c <=? b)%float (c <=? a)%float))
            sweep) sweep) sweep = true) by (vm_compute; reflexivity).
  rewrite forallb_forall in H. specialize (H a Ha).
  rewrite forallb_forall in H. specialize (H b Hb).
  rewrite forallb_forall in H. specialize (H c Hc).
  intros H1 H2. rewrite H1, H2 in H. exact H.
Qed.

Lemma sweep_leb_refl a : In a sweep -> (a <=? a)%float = true.
Proof. intros Ha. sweep_cases Ha; vm_compute; reflexivity. Qed.

(** On the sides the loop meets, the double product and [Math.floor] agree
    with integer arithmetic. *)
Lemma shrink_exact side :
  0 <= side <= 128 -> shrink side = Z.max 24 (side * 9 / 10).
Proof.
  intros Hs.
  assert (H : forallb (fun n => shrink (Z.of_nat n)
                                =? Z.max 24 (Z.of_nat n * 9 / 10))
                      (seq 0 129) = true) by (vm_compute; reflexivity).
  rewrite forallb_forall in H.
  specialize (H (Z.to_nat side)). rewrite Z2Nat.id in H by lia.
  apply Z.eqb_eq, H, in_seq. lia.
Qed.

Lemma shrink_bounds side :
  0 <= side <= 128 ->
  24 <= shrink side <= 128 /\ (24 < side -> shrink side <= side).
Proof.
  intros Hs. rewrite shrink_exact by exact Hs.
  assert (side * 9 / 10 <= side) by (apply Z.div_le_upper_bound; lia).
  assert (0 <= side * 9 / 10) by (apply Z.div_pos; lia).
  lia.
Qed.

(** ** One call of [compress] *)

Section LoopFacts.

Context {B : Browser}.
Variable img : Bitmap.
Variable maxSizeBytes : Z.

Abbreviation compress := (Compressor.compress img maxSizeBytes).
Abbreviation compress_loop := (Compressor.compress_loop img maxSizeBytes).
Abbreviation payloadAt := (Spec.payloadAt img).

Lemma compress_Return v : compress v = Return <-> getContext2d = false.
Proof.
  unfold Compressor.compress. destruct getContext2d.
  - split; [|discriminate].
    repeat match goal with |- context [if ?c then _ else _] => destruct c end;
      discriminate.
  - split; reflexivity.
Qed.

(** [compress] settles the promise only by resolving within the budget or
    by rejecting above it, and rejects only when the attempts are used up
    or when [width] and [quality] are at their floors. *)
Lemma compress_Settle v p :
  compress v = Settle p ->
  (p = Resolved (toDataURL img (width v) (height v) (quality v))
   /\ payloadAt v <= maxSizeBytes)
  \/ (p = Rejected (TooLarge (payloadAt v) maxSizeBytes)
      /\ payloadAt v > maxSizeBytes
      /\ (attempts v + 1 >= maxAttempts
          \/ (width v <= 24 /\ (quality v <=? 0.05)%float = true))).
Proof.
  unfold Compressor.compress, Spec.payloadAt.
  destruct getContext2d; [|discriminate].
  set (pb := getBase64PayloadBytes _).
  destruct (pb <=? maxSizeBytes) eqn:Hfit; simpl.
  - apply Z.leb_le in Hfit.
    destruct (pb >? maxSizeBytes) eqn:Hgt; [apply Z.gtb_lt in Hgt; lia|].
    intros [= <-]. left. split; [reflexivity | lia].
  - apply Z.leb_gt in Hfit.
    destruct (attempts v + 1 >=? maxAttempts) eqn:Hatt; simpl.
    + destruct (pb >? maxSizeBytes) eqn:Hgt.
      * intros [= <-]. right. apply Z.geb_le in Hatt. repeat split; lia.
      * rewrite Z.gtb_ltb in Hgt. apply Z.ltb_ge in Hgt. lia.
    + destruct ((width v <=? 24) && (quality v <=? 0.05)%float) eqn:Hfloor.
      * apply andb_prop in Hfloor. destruct Hfloor as [Hw Hq].
        apply Z.leb_le in Hw.
        destruct (pb >? maxSizeBytes) eqn:Hgt.
        -- intros [= <-]. right. repeat split; try lia. right. split; assumption.
        -- rewrite Z.gtb_ltb in Hgt. apply Z.ltb_ge in Hgt. lia.
      * destruct (0.05 <? quality v)%float; discriminate.
Qed.

(** When [compress] rejects: the height plays no part. *)
Lemma compress_rejects_iff v :
  (exists e, compress v = Settle (Rejected e))
  <-> getContext2d = true
      /\ payloadAt v > maxSizeBytes
      /\ (attempts v + 1 >= maxAttempts
          \/ (width v <= 24 /\ (quality v <=? 0.05)%float = true)).
Proof.
  split.
  - intros [e He]. split.
    + destruct getContext2d eqn:Hctx; [reflexivity|].
      rewrite (proj2 (compress_Return v) Hctx) in He. discriminate.
    + apply compress_Settle in He.
      destruct He as [[He _] | (_ & Hgt & Hwhy)]; [discriminate | auto].
  - intros (Hctx & Hgt & Hwhy). exists (TooLarge (payloadAt v) maxSizeBytes).
    unfold Compressor.compress, Spec.payloadAt in *. rewrite Hctx.
    set (pb := getBase64PayloadBytes _) in *.
    replace (pb <=? maxSizeBytes) with false by (symmetry; apply Z.leb_gt; lia).
    replace (pb >? maxSizeBytes) with true by (symmetry; apply Z.gtb_lt; lia).
    destruct Hwhy as [Hatt | [Hw Hq]].
    + replace (attempts v + 1 >=? maxAttempts) with true
        by (symmetry; apply Z.geb_le; lia).
      reflexivity.
    + replace (width v <=? 24) with true by (symmetry; apply Z.leb_le; lia).
      rewrite Hq, orb_true_r. reflexivity.
Qed.

(** [compress] schedules another call only above the budget, below the
    attempt bound and off the floor test, after lowering the quality or,
    with the quality at its floor, shrinking both sides. *)
Lemma compress_Timeout v v' :
  compress v = Timeout v' ->
  getContext2d = true
  /\ payloadAt v > maxSizeBytes
  /\ attempts v + 1 < maxAttempts
  /\ ((width v <=? 24) && (quality v <=? 0.05)%float = false)
  /\ ((0.05 <? quality v)%float = true
      /\ v' = mkVars (width v) (height v)
                     (Math_max 0.05 (quality v - 0.05))%float (attempts v + 1)
      \/ (0.05 <? quality v)%float = false
         /\ v' = mkVars (shrink (width v)) (shrink (height v)) 0.5%float
                        (attempts v + 1)).
Proof.
  unfold Compressor.compress, Spec.payloadAt.
  destruct getContext2d; [|discriminate].
  set (pb := getBase64PayloadBytes _).
  destruct (pb <=? maxSizeBytes) eqn:Hfit; simpl.
  { destruct (pb >? maxSizeBytes); discriminate. }
  apply Z.leb_gt in Hfit.
  destruct (attempts v + 1 >=? maxAttempts) eqn:Hatt; simpl.
  { destruct (pb >? maxSizeBytes); discriminate. }
  rewrite Z.geb_leb in Hatt. apply Z.leb_gt in Hatt.
  destruct ((width v <=? 24) && (quality v <=? 0.05)%float) eqn:Hfloor.
  { destruct (pb >? maxSizeBytes); discriminate. }
  destruct (0.05 <? quality v)%float eqn:Hq; intros [= <-];
    (split; [reflexivity|]); (split; [lia|]); (split; [lia|]);
    (split; [reflexivity|]); [left | right]; split; reflexivity.
Qed.

Lemma compress_keeps_sane v v' :
  sane v -> compress v = Timeout v' -> sane v'.
Proof.
  intros (Hw & Hh & Hq) Hc.
  apply compress_Timeout in Hc.
  destruct Hc as (_ & _ & _ & _ & [[Hlt ->] | [Hlt ->]]); unfold sane; simpl.
  - split; [exact Hw|]. split; [exact Hh|]. apply sweep_lowered; assumption.
  - pose proof (shrink_bounds (width v) Hw) as [Hw' _].
    pose proof (shrink_bounds (height v) Hh) as [Hh' _].
    split; [lia|]. split; [lia|]. in_sweep.
Qed.

(** ** The chain of calls *)

(** The fuel left over never matters: a call is only scheduled below the
    attempt bound. *)
Lemma compress_loop_total fuel v :
  maxAttempts - attempts v <= Z.of_nat fuel -> (1 <= fuel)%nat ->
  exists calls p, compress_loop fuel v = Some (calls, p).
Proof.
  revert v. induction fuel as [|fuel IH]; intros v Hfuel Hpos; [lia|].
  simpl. destruct (compress v) as [p | v' |] eqn:Hc.
  - eexists _, _. reflexivity.
  - apply compress_Timeout in Hc.
    destruct Hc as (_ & _ & Hatt & _ & Hv').
    assert (Ha : attempts v' = attempts v + 1)
      by (destruct Hv' as [[_ ->] | [_ ->]]; reflexivity).
    destruct (IH v') as (calls & p & ->); [lia | lia |].
    eexists _, _. reflexivity.
  - eexists _, _. reflexivity.
Qed.

Lemma compress_loop_more_fuel fuel fuel' v r :
  compress_loop fuel v = Some r -> (fuel <= fuel')%nat ->
  compress_loop fuel' v = Some r.
Proof.
  revert fuel' v r. induction fuel as [|fuel IH]; intros fuel' v r; [discriminate|].
  destruct fuel' as [|fuel']; [lia|]. simpl.
  destruct (compress v) as [p | v' |]; try (intros; assumption).
  destruct (compress_loop fuel v') as [[calls p]|] eqn:Hrec; [|discriminate].
  intros [= <-] Hle. rewrite (IH fuel' v' _ Hrec) by lia. reflexivity.
Qed.

(** How the promise can end. *)
Lemma compress_loop_outcome fuel v calls p :
  compress_loop fuel v = Some (calls, p) ->
  match p with
  | Resolved dataUrl => getBase64PayloadBytes dataUrl <= maxSizeBytes
  | Rejected e =>
      exists payloadBytes,
        e = TooLarge payloadBytes maxSizeBytes /\ payloadBytes > maxSizeBytes
  | Pending => getContext2d = false
  end.
Proof.
  revert v calls p. induction fuel as [|fuel IH]; intros v calls p; [discriminate|].
  simpl. destruct (compress v) as [p0 | v' |] eqn:Hc.
  - intros [= <- <-]. apply compress_Settle in Hc.
    destruct Hc as [[-> Hfit] | (-> & Hgt & _)].
    + exact Hfit.
    + eexists. split; [reflexivity | exact Hgt].
  - destruct (compress_loop fuel v') as [[calls' p']|] eqn:Hrec; [|discriminate].
    intros [= <- <-]. exact (IH _ _ _ Hrec).
  - intros [= <- <-]. exact (proj1 (compress_Return v) Hc).
Qed.

(** The number of calls made. *)
Lemma compress_loop_length fuel v calls p :
  compress_loop fuel v = Some (calls, p) ->
  1 <= Z.of_nat (List.length calls) <= Z.max 1 (maxAttempts - attempts v).
Proof.
  revert v calls p.
  induction fuel as [|fuel IH]; intros v calls p Hrun; [discriminate|].
  simpl in Hrun. destruct (compress v) as [p0 | v' |] eqn:Hc.
  - injection Hrun as <- <-. cbn [List.length]. lia.
  - destruct (compress_loop fuel v') as [[calls' p']|] eqn:Hrec; [|discriminate].
    injection Hrun as <- <-. specialize (IH _ _ _ Hrec).
    apply compress_Timeout in Hc. destruct Hc as (_ & _ & Hatt & _ & Hv').
    assert (Ha : attempts v' = attempts v + 1)
      by (destruct Hv' as [[_ ->] | [_ ->]]; reflexivity).
    cbn [List.length]. lia.
  - injection Hrun as <- <-. cbn [List.length]. lia.
Qed.

(** The calls start at [v], and each but the last schedules the next. *)
Lemma compress_loop_linked fuel v calls p :
  compress_loop fuel v = Some (calls, p) ->
  nth_error calls 0 = Some v
  /\ forall i a b, nth_error calls i = Some a -> nth_error calls (S i) = Some b ->
       compress a = Timeout b.
Proof.
  revert v calls p. induction fuel as [|fuel IH]; intros v calls p; [discriminate|].
  simpl. destruct (compress v) as [p0 | v' |] eqn:Hc.
  - intros [= <- <-]. split; [reflexivity|].
    intros [|i] a b Ha Hb; simpl in Hb; [discriminate | destruct i; discriminate].
  - destruct (compress_loop fuel v') as [[calls' p']|] eqn:Hrec; [|discriminate].
    intros [= <- <-]. destruct (IH _ _ _ Hrec) as [Hhd Hlink].
    split; [reflexivity|].
    intros [|i] a b Ha Hb.
    + injection Ha as <-. change (nth_error calls' 0 = Some b) in Hb.
      rewrite Hhd in Hb. injection Hb as <-. exact Hc.
    + exact (Hlink i a b Ha Hb).
  - intros [= <- <-]. split; [reflexivity|].
    intros [|i] a b Ha Hb; simpl in Hb; [discriminate | destruct i; discriminate].
Qed.

Lemma compress_loop_sane fuel v calls p :
  sane v -> compress_loop fuel v = Some (calls, p) ->
  forall i a, nth_error calls i = Some a -> sane a.
Proof.
  intros Hv Hrun. destruct (compress_loop_linked _ _ _ _ Hrun) as [Hhd Hlink].
  induction i as [|i IH]; intros a Ha.
  - rewrite Hhd in Ha. injection Ha as <-. exact Hv.
  - destruct (nth_error calls i) as [c|] eqn:Hc.
    + exact (compress_keeps_sane c a (IH c eq_refl) (Hlink i c a Hc Ha)).
    + apply nth_error_None in Hc.
      assert (nth_error calls (S i) = None) by (apply nth_error_None; lia).
      congruence.
Qed.

(** From one call to the next, a side above 24 does not grow and a quality
    above 0.05 does not rise. *)
Lemma compress_tightens a b :
  sane a -> compress a = Timeout b ->
  (24 < width a -> width b <= width a)
  /\ (24 < height a -> height b <= height a)
  /\ ((0.05 <? quality a)%float = true -> float_le (quality b) (quality a)).
Proof.
  intros (Hw & Hh & Hq) Hc. apply compress_Timeout in Hc.
  destruct Hc as (_ & _ & _ & _ & [[Hlt ->] | [Hlt ->]]); simpl.
  - split; [lia|]. split; [lia|]. intros _. apply sweep_lowered; assumption.
  - split; [apply shrink_bounds; exact Hw|].
    split; [apply shrink_bounds; exact Hh|]. congruence.
Qed.

End LoopFacts.

(** ** Values that only go down while above their floor *)

Lemma stepwise_non_increasing {A X : Type} (f : A -> X) (D : A -> Prop)
    (le : X -> X -> Prop) (above_floor : X -> Prop) (l : list A) :
  (forall a, D a -> le (f a) (f a)) ->
  (forall a b c, D a -> D b -> D c ->
     le (f b) (f a) -> le (f c) (f b) -> le (f c) (f a)) ->
  (forall i a, nth_error l i = Some a -> D a) ->
  (forall i a b, nth_error l i = Some a -> nth_error l (S i) = Some b ->
     above_floor (f a) -> le (f b) (f a)) ->
  non_increasing_until_floor le above_floor (map f l).
Proof.
  intros Hrefl Htrans HD Hstep i j x y Hij Hx.
  rewrite nth_error_map in Hx.
  destruct (nth_error l i) as [a|] eqn:Ha; [|discriminate]. injection Hx as <-.
  revert y. induction Hij as [|m Hle IH]; intros y Hy Habove.
  - rewrite nth_error_map, Ha in Hy. injection Hy as <-. apply Hrefl, (HD i), Ha.
  - rewrite nth_error_map in Hy.
    destruct (nth_error l (S m)) as [b|] eqn:Hb; [|discriminate]. injection Hy as <-.
    destruct (nth_error l m) as [c|] eqn:Hc.
    + assert (Hca : le (f c) (f a)).
      { apply IH.
        - rewrite nth_error_map, Hc. reflexivity.
        - intros k z Hk Hz. apply (Habove k z); [lia | exact Hz]. }
      apply (Htrans a c b (HD _ _ Ha) (HD _ _ Hc) (HD _ _ Hb) Hca).
      apply (Hstep m c b Hc Hb). apply (Habove m (f c)); [lia|].
      rewrite nth_error_map, Hc. reflexivity.
    + apply nth_error_None in Hc.
      assert (nth_error l (S m) = None) by (apply nth_error_None; lia).
      congruence.
Qed.

(** ** The compressor as a whole *)

Section CompressorTheorems.

Context {B : Browser}.

Lemma initial_loop_total (img : Bitmap) (maxSizeBytes : Z) :
  exists calls p,
    compress_loop img maxSizeBytes (Z.to_nat maxAttempts) (initial img)
    = Some (calls, p).
Proof.
  apply compress_loop_total; unfold initial, maxAttempts; cbn [attempts]; lia.
Qed.

(** C1. For every file and byte budget, [compressImageToSize] returns a
    promise that never resolves with a payload whose decoded size, as
    [getBase64PayloadBytes] computes it, exceeds the budget: it resolves
    within the budget or rejects with an error (the image failed to load,
    or the last payload was above the budget).  The promise is settled
    whenever the browser hands out a 2D canvas context. *)
Theorem compressImageToSize_within_budget (file : File) (maxSizeBytes : Z) :
  exists calls p,
    compressImageToSize file maxSizeBytes = Some (calls, p)
    /\ (forall dataUrl, p = Resolved dataUrl ->
          getBase64PayloadBytes dataUrl <= maxSizeBytes)
    /\ (forall e, p = Rejected e ->
          e = FailedToLoad
          \/ exists payloadBytes,
               e = TooLarge payloadBytes maxSizeBytes
               /\ payloadBytes > maxSizeBytes)
    /\ (getContext2d = true ->
          (exists dataUrl, p = Resolved dataUrl
                           /\ getBase64PayloadBytes dataUrl <= maxSizeBytes)
          \/ (exists e, p = Rejected e)).
Proof.
  unfold compressImageToSize. destruct (decode file) as [img|].
  - destruct (initial_loop_total img maxSizeBytes) as (calls & p & Hrun).
    exists calls, p. split; [exact Hrun|].
    pose proof (compress_loop_outcome _ _ _ _ _ _ Hrun) as Hout.
    split; [|split].
    + intros d ->. exact Hout.
    + intros e ->. right. exact Hout.
    + intros Hctx. destruct p as [d | e |].
      * left. exists d. split; [reflexivity | exact Hout].
      * right. exists e. reflexivity.
      * congruence.
  - exists [], (Rejected FailedToLoad). split; [reflexivity|].
    split; [discriminate|]. split.
    + intros e [= <-]. left. reflexivity.
    + intros _. right. eexists. reflexivity.
Qed.

(** C3. Across the calls [compress] makes for one file, the width, the
    height and the quality each do not increase for as long as they stay
    above their floors (24 pixels, 0.05). *)
Theorem compress_explores_downwards (file : File) (maxSizeBytes : Z)
    (calls : list Vars) (p : Promise) :
  compressImageToSize file maxSizeBytes = Some (calls, p) ->
  non_increasing_until_floor Z.le (fun w => 24 < w) (map width calls)
  /\ non_increasing_until_floor Z.le (fun h => 24 < h) (map height calls)
  /\ non_increasing_until_floor float_le (fun q => (0.05 <? q)%float = true)
       (map quality calls).
Proof.
  unfold compressImageToSize. destruct (decode file) as [img|].
  - intros Hrun.
    assert (Hinit : sane (initial img)).
    { unfold sane, initial. simpl. split; [lia|]. split; [lia|]. in_sweep. }
    pose proof (compress_loop_sane _ _ _ _ _ _ Hinit Hrun) as Hsane.
    destruct (compress_loop_linked _ _ _ _ _ _ Hrun) as [_ Hlink].
    assert (Hstep : forall i a b, nth_error calls i = Some a ->
              nth_error calls (S i) = Some b ->
              (24 < width a -> width b <= width a)
              /\ (24 < height a -> height b <= height a)
              /\ ((0.05 <? quality a)%float = true ->
                  float_le (quality b) (quality a))).
    { intros i a b Ha Hb.
      exact (compress_tightens _ _ a b (Hsane i a Ha) (Hlink i a b Ha Hb)). }
    split; [|split].
    + apply (stepwise_non_increasing width sane); try exact Hsane.
      * intros; lia.
      * intros; lia.
      * intros i a b Ha Hb. apply (Hstep i a b Ha Hb).
    + apply (stepwise_non_increasing height sane); try exact Hsane.
      * intros; lia.
      * intros; lia.
      * intros i a b Ha Hb. apply (Hstep i a b Ha Hb).
    + apply (stepwise_non_increasing quality sane); try exact Hsane.
      * intros a (_ & _ & Ha). apply sweep_leb_refl, Ha.
      * intros a b c (_ & _ & Ha) (_ & _ & Hb) (_ & _ & Hc).
        apply sweep_leb_trans; assumption.
      * intros i a b Ha Hb. apply (Hstep i a b Ha Hb).
  - intros [= <- <-].
    repeat split; intros [|i] j a b _ Ha; discriminate Ha.
Qed.

(** C4. For every decoded image and budget the loop makes at least one and
    at most 50 calls of [compress] and then stops, whatever fuel beyond 50
    it is given; with a 2D canvas context it stops by resolving or by
    rejecting. *)
Theorem compress_loop_terminates (img : Bitmap) (maxSizeBytes : Z) :
  exists calls p,
    (forall fuel, (Z.to_nat maxAttempts <= fuel)%nat ->
       compress_loop img maxSizeBytes fuel (initial img) = Some (calls, p))
    /\ (1 <= List.length calls <= 50)%nat
    /\ (getContext2d = true ->
          (exists dataUrl, p = Resolved dataUrl) \/ (exists e, p = Rejected e)).
Proof.
  destruct (initial_loop_total img maxSizeBytes) as (calls & p & Hrun).
  exists calls, p. split; [|split].
  - intros fuel Hfuel. exact (compress_loop_more_fuel _ _ _ _ _ _ Hrun Hfuel).
  - pose proof (compress_loop_length _ _ _ _ _ _ Hrun) as Hlen.
    unfold initial, maxAttempts in Hlen. cbn [attempts] in Hlen. lia.
  - intros Hctx. pose proof (compress_loop_outcome _ _ _ _ _ _ Hrun) as Hout.
    destruct p as [d | e |].
    + left. exists d. reflexivity.
    + right. exists e. reflexivity.
    + congruence.
Qed.

End CompressorTheorems.

(** ** The compressor in the small browser *)

Lemma compressImageToSize_within_budget_witness :
  exists calls p,
    @compressImageToSize Demo.browser Demo.icon 1000 = Some (calls, p)
    /\ ((exists dataUrl, p = Resolved dataUrl
                         /\ getBase64PayloadBytes dataUrl <= 1000)
        \/ (exists e, p = Rejected e)).
Proof.
  destruct (@compressImageToSize_within_budget Demo.browser Demo.icon 1000)
    as (calls & p & Hrun & _ & _ & Hsettled).
  exists calls, p. split; [exact Hrun | apply Hsettled; reflexivity].
Defined.

Lemma compress_explores_downwards_witness :
  match @compressImageToSize Demo.browser (40, 40)%N 1000 with
  | Some (calls, _) =>
      (12 <= List.length calls)%nat
      /\ non_increasing_until_floor Z.le (fun w => 24 < w) (map width calls)
      /\ non_increasing_until_floor Z.le (fun h => 24 < h) (map height calls)
      /\ non_increasing_until_floor float_le (fun q => (0.05 <? q)%float = true)
           (map quality calls)
  | None => False
  end.
Proof.
  destruct (@compressImageToSize Demo.browser (40, 40)%N 1000)
    as [[calls p]|] eqn:Hrun.
  - split.
    + vm_compute in Hrun. injection Hrun as <- _. simpl. lia.
    + exact (@compress_explores_downwards Demo.browser _ _ _ _ Hrun).
  - vm_compute in Hrun. discriminate Hrun.
Defined.

Lemma compress_loop_terminates_witness :
  exists calls p,
    @compress_loop Demo.browser (1, 1)%N 1000 50 (@initial Demo.browser (1, 1)%N)
    = Some (calls, p)
    /\ (1 <= List.length calls <= 50)%nat
    /\ ((exists dataUrl, p = Resolved dataUrl) \/ (exists e, p = Rejected e)).
Proof.
  destruct (@compress_loop_terminates Demo.browser (1, 1)%N 1000)
    as (calls & p & Hrun & Hlen & Hsettled).
  exists calls, p. split; [apply Hrun; vm_compute; lia|].
  split; [exact Hlen | apply Hsettled; reflexivity].
Defined.

(** A one-pixel image and an empty one are resolved by the first call. *)
Example one_pixel_image :
  @compressImageToSize Demo.browser (1, 1)%N 1000
  = Some ([mkVars 1 1 0.5%float 0], Resolved "data:image/jpeg;base64,").
Proof. vm_compute. reflexivity. Qed.

Example empty_image :
  @compressImageToSize Demo.browser (0, 0)%N 1000
  = Some ([mkVars 0 0 0.5%float 0], Resolved "data:image/jpeg;base64,").
Proof. vm_compute. reflexivity. Qed.

(** Without a 2D context the first call returns at once and the promise is
    never settled. *)
Example no_context_never_settles :
  @compressImageToSize Demo.browser_without_2d (400, 400)%N 1000
  = Some ([mkVars 128 128 0.5%float 0], Pending).
Proof. vm_compute. reflexivity. Qed.

(** From 128 pixels the attempts run out in the fifth sweep, at 82 pixels:
    the 24 pixel floor is out of reach within 50 attempts. *)
Example attempts_run_out :
  exists calls,
    @compressImageToSize Demo.browser (400, 400)%N 1000
    = Some (calls, Rejected (TooLarge 5043 1000))
    /\ List.length calls = 50%nat
    /\ List.last calls (mkVars 0 0 0 0)
       = mkVars 82 82 0.25000000000000006%float 49.
Proof. eexists. split; [vm_compute; reflexivity|]. split; reflexivity. Qed.

(** A side that starts below the floor is raised to it, and the quality
    goes back to [0.5] after its floor: both are past "until the floor is
    reached". *)
Example side_raised_to_floor :
  @compress Demo.browser (128, 20)%N 1000 (mkVars 128 20 0.05%float 10)
  = Timeout (mkVars 115 24 0.5%float 11).
Proof. vm_compute. reflexivity. Qed.

(** C2. The floor test of [compress] reads [width] and [quality] only.  A
    20 by 128 image whose payload stays above the budget is rejected by the
    eleventh call, at the end of the first quality sweep, with attempts
    left and its height still at 128, above the floor; a 24 by 24
    rendering would fit the budget. *)
Theorem compress_gives_up_on_tall_image :
  exists calls last,
    @compressImageToSize Demo.browser Demo.banner 1000
    = Some (calls, Rejected (TooLarge 1920 1000))
    /\ List.length calls = 11%nat
    /\ List.last calls (mkVars 0 0 0 0) = last
    /\ last = mkVars 20 128 0.05%float 10
    /\ attempts last + 1 < maxAttempts
    /\ 24 < height last
    /\ @compress Demo.browser Demo.banner 1000 (mkVars 24 24 0.5%float 11)
       = Settle (Resolved (@toDataURL Demo.browser Demo.banner 24 24 0.5%float))
    /\ getBase64PayloadBytes (@toDataURL Demo.browser Demo.banner 24 24 0.5%float)
       = 432.
Proof.
  eexists. exists (mkVars 20 128 0.05%float 10).
  split; [vm_compute; reflexivity|].
  repeat split; vm_compute; reflexivity.
Qed.

(* ================================================================= *)
(** * Properties of content resolution, rendering and export *)

(** ** Strings *)

Lemma append_assoc (a b c : string) : (a ++ b) ++ c = a ++ (b ++ c).
Proof. induction a as [|x a IH]; simpl; [reflexivity | rewrite IH; reflexivity]. Qed.

Lemma truthy_false s : truthy s = false <-> s = "".
Proof. destruct s; simpl; split; congruence. Qed.

Lemma strlen_positive s : (strlen s >? 0) = truthy s.
Proof.
  destruct s; [reflexivity|]. unfold strlen. simpl String.length.
  apply Z.gtb_lt. lia.
Qed.

Lemma lines_single s : single_line s = true -> lines s = [s].
Proof.
  induction s as [|c s IH]; simpl; [reflexivity|].
  destruct (Ascii.eqb c LF); simpl; [discriminate|].
  intros H. rewrite (IH H). reflexivity.
Qed.

Lemma lines_append s t :
  single_line s = true -> lines (s ++ nl ++ t) = s :: lines t.
Proof.
  change (nl ++ t) with (String LF t).
  induction s as [|c s IH]; cbn [append lines single_line].
  - rewrite Ascii.eqb_refl. reflexivity.
  - destruct (Ascii.eqb c LF); cbn [negb andb]; [discriminate|].
    intros H. rewrite (IH H). reflexivity.
Qed.

Lemma lines_join (l : list string) :
  l <> [] -> forallb single_line l = true -> lines (join nl l) = l.
Proof.
  induction l as [|x l IH]; [congruence|]. intros _ H.
  simpl in H. apply andb_prop in H. destruct H as [Hx Hl].
  destruct l as [|y l].
  - simpl. apply lines_single, Hx.
  - change (join nl (x :: y :: l)) with (x ++ nl ++ join nl (y :: l)).
    rewrite (lines_append _ _ Hx), IH; [reflexivity | discriminate | exact Hl].
Qed.

(** ** The contact block *)

(** [generateVCard] builds the block the specification describes. *)
Lemma generateVCard_vcard_block info : generateVCard info = vcard_block info.
Proof.
  unfold generateVCard, vcard_block, data_lines, present.
  destruct (truthy (name info)), (truthy (organization info)),
    (truthy (phone info)), (truthy (email info));
    cbn [List.app join]; rewrite ?append_assoc; reflexivity.
Qed.

Lemma data_lines_length info :
  List.length (data_lines info)
  = (filled (name info) + filled (organization info)
     + filled (phone info) + filled (email info))%nat.
Proof.
  unfold data_lines, present, filled.
  destruct (truthy (name info)), (truthy (organization info)),
    (truthy (phone info)), (truthy (email info)); reflexivity.
Qed.

(** When no field holds a line feed, the lines of the block are the two
    opening lines, one line per present field, and the closing line. *)
Lemma generateVCard_lines info :
  single_line (name info) = true -> single_line (organization info) = true ->
  single_line (phone info) = true -> single_line (email info) = true ->
  lines (generateVCard info)
  = (["BEGIN:VCARD"; "VERSION:3.0"] ++ data_lines info ++ ["END:VCARD"])%list.
Proof.
  intros Hn Ho Hp He. rewrite generateVCard_vcard_block. unfold vcard_block.
  apply lines_join; [discriminate|].
  unfold data_lines, present.
  destruct (truthy (name info)), (truthy (organization info)),
    (truthy (phone info)), (truthy (email info));
    cbn [List.app forallb single_line append Ascii.eqb Bool.eqb negb andb LF
         ascii_of_nat];
    simpl; rewrite ?Hn, ?Ho, ?Hp, ?He; reflexivity.
Qed.

(** ** Rendering and export *)

Section RenderTheorems.

Context {B : Browser}.
Variable qr_throws : string -> Options -> bool.

Abbreviation generateQRCode := (Page.generateQRCode qr_throws).
Abbreviation downloadQRCode := (Page.downloadQRCode qr_throws).

(** What [generateQRCode] does on content that is empty or not valid. *)
Lemma generateQRCode_invalid s canvasRef :
  getQRContent s = "" \/ hasValidContent s = false ->
  generateQRCode s canvasRef
  = setQrCodeGenerated_to false ::
    match canvasRef with
    | Some c =>
        if canvas_2d c then [clearRect 0 0 (canvas_width c) (canvas_height c)]
        else []
    | None => []
    end.
Proof.
  intros H. unfold Page.generateQRCode.
  destruct H as [-> | ->]; [reflexivity|].
  rewrite orb_true_r. reflexivity.
Qed.

Lemma generateQRCode_invalid_no_call s canvasRef :
  getQRContent s = "" \/ hasValidContent s = false ->
  no_encoder_call (generateQRCode s canvasRef).
Proof.
  intros H a. rewrite (generateQRCode_invalid _ _ H).
  destruct canvasRef as [c|]; [destruct (canvas_2d c)|]; simpl;
    intuition (subst; reflexivity).
Qed.

(** The encoder calls [generateQRCode] can make. *)
Lemma generateQRCode_call s canvasRef a content o :
  In a (generateQRCode s canvasRef) -> encoder_call a = Some (content, o) ->
  content = getQRContent s /\ content <> "" /\ hasValidContent s = true
  /\ opt_errorCorrectionLevel o
     = match inputType s, imageMode s with image, embed => L | _, _ => M end.
Proof.
  unfold Page.generateQRCode.
  destruct (truthy (getQRContent s)) eqn:Hc; simpl.
  - destruct (hasValidContent s) eqn:Hv; simpl.
    + destruct canvasRef as [c|]; [|intros []].
      assert (Hne : getQRContent s <> "")
        by (intros E; rewrite E in Hc; discriminate).
      destruct (qr_throws _ _); simpl;
        intros [<- | [<- | []]]; simpl; try discriminate;
        intros [= <- <-]; simpl; auto.
    + destruct canvasRef as [c|]; [destruct (canvas_2d c)|]; simpl;
        intuition (subst; discriminate).
  - destruct canvasRef as [c|]; [destruct (canvas_2d c)|]; simpl;
      intuition (subst; discriminate).
Qed.

(** The encoder calls [downloadQRCode] can make. *)
Lemma downloadQRCode_call s canvasRef a content o :
  In a (downloadQRCode s canvasRef) -> encoder_call a = Some (content, o) ->
  content = getQRContent s
  /\ opt_errorCorrectionLevel o
     = match inputType s, imageMode s with image, embed => L | _, _ => M end.
Proof.
  unfold Page.downloadQRCode.
  destruct (qrCodeGenerated s); simpl; [|intuition (subst; discriminate)].
  destruct (truthy (getQRContent s)); simpl; [|intros []].
  destruct (exportFormat s).
  - destruct canvasRef as [c|]; [|intros []].
    destruct (exportResolution s =? qrSize s); simpl.
    + intuition (subst; discriminate).
    + destruct (qr_throws _ _); simpl;
        intros [<- | H]; simpl;
        try (intros [= <- <-]; simpl; auto; fail);
        intuition (subst; discriminate).
  - destruct canvasRef as [c|]; [|intros []].
    destruct (qr_throws _ _); simpl;
      intros [<- | H]; simpl;
      try (intros [= <- <-]; simpl; auto; fail);
      intuition (subst; discriminate).
  - destruct (qr_throws _ _); simpl;
      intros [<- | H]; simpl;
      try (intros [= <- <-]; simpl; auto; fail);
      intuition (subst; discriminate).
Qed.

(** C5. Every call of the QR encoder, by a render ([generateQRCode]) or by
    an export ([downloadQRCode]), asks for level L exactly when the image
    type is selected with the embed mode, and for level M in every other
    case. *)
Theorem errorCorrectionLevel_L_iff_embed s canvasRef a content o :
  In a (generateQRCode s canvasRef ++ downloadQRCode s canvasRef) ->
  encoder_call a = Some (content, o) ->
  (inputType s = image /\ imageMode s = embed ->
     opt_errorCorrectionLevel o = L)
  /\ (~ (inputType s = image /\ imageMode s = embed) ->
     opt_errorCorrectionLevel o = M)
  /\ (opt_errorCorrectionLevel o = L \/ opt_errorCorrectionLevel o = M).
Proof.
  intros Hin Hcall.
  assert (Hlevel : opt_errorCorrectionLevel o
            = match inputType s, imageMode s with image, embed => L | _, _ => M end).
  { apply in_app_or in Hin. destruct Hin as [Hin | Hin].
    - apply (generateQRCode_call _ _ _ _ _ Hin Hcall).
    - apply (downloadQRCode_call _ _ _ _ _ Hin Hcall). }
  rewrite Hlevel. split; [|split].
  - intros [-> ->]. reflexivity.
  - intros Hn. destruct (inputType s), (imageMode s); try reflexivity.
    exfalso. apply Hn. split; reflexivity.
  - destruct (inputType s), (imageMode s); auto.
Qed.

(** C6. The resolved content of a contact record is the text block framed
    by the BEGIN/VERSION lines and the END line, with one line per
    non-empty field in the order full name, organization, phone, email.  A
    record with only an email has the email line as its one data line, and
    a record with every field empty is not valid content: nothing is
    encoded for it. *)
Theorem generateVCard_one_line_per_field info e s canvasRef :
  generateVCard info
  = join nl (["BEGIN:VCARD"; "VERSION:3.0"] ++ data_lines info ++ ["END:VCARD"])%list
  /\ List.length (data_lines info)
     = (filled (name info) + filled (organization info)
        + filled (phone info) + filled (email info))%nat
  /\ (e <> "" ->
        generateVCard (mkContactInfo "" "" e "")
        = join nl ["BEGIN:VCARD"; "VERSION:3.0"; "EMAIL:" ++ e; "END:VCARD"])
  /\ (inputType s = contact -> contactInfo s = mkContactInfo "" "" "" "" ->
        hasValidContent s = false
        /\ no_encoder_call (generateQRCode s canvasRef)).
Proof.
  split; [apply generateVCard_vcard_block|].
  split; [apply data_lines_length|]. split.
  - intros He. rewrite generateVCard_vcard_block.
    unfold vcard_block, data_lines, present. simpl.
    destruct e; [congruence | reflexivity].
  - intros Ht Hc.
    assert (Hv : hasValidContent s = false).
    { unfold hasValidContent. rewrite Ht, Hc. reflexivity. }
    split; [exact Hv|]. apply generateQRCode_invalid_no_call. right. exact Hv.
Qed.

(** C10. A contact record whose only non-empty field is the organization
    is not valid content, and nothing is encoded for it, although its
    resolved block is non-empty and holds the organization line. *)
Theorem organization_alone_is_invalid s canvasRef org :
  inputType s = contact -> contactInfo s = mkContactInfo "" "" "" org ->
  org <> "" ->
  hasValidContent s = false
  /\ no_encoder_call (generateQRCode s canvasRef)
  /\ getQRContent s
     = join nl ["BEGIN:VCARD"; "VERSION:3.0"; "ORG:" ++ org; "END:VCARD"]
  /\ getQRContent s <> "".
Proof.
  intros Ht Hc Horg.
  assert (Hv : hasValidContent s = false).
  { unfold hasValidContent. rewrite Ht, Hc. reflexivity. }
  split; [exact Hv|]. split; [apply generateQRCode_invalid_no_call; auto|].
  unfold getQRContent. rewrite Ht, Hc, generateVCard_vcard_block.
  unfold vcard_block, data_lines, present. simpl.
  destruct org; [congruence|]. split; [reflexivity | discriminate].
Qed.

End RenderTheorems.

(* ================================================================= *)
(** * Properties of the image handlers and effects *)

Section TransitionTheorems.

Context {B : Browser}.

Lemma InputType_eqb_refl t : InputType_eqb t t = true.
Proof. destruct t; reflexivity. Qed.

Lemma ImageMode_eqb_refl m : ImageMode_eqb m m = true.
Proof. destruct m; reflexivity. Qed.

Lemma same_imageFile_refl f : same_imageFile f f = true.
Proof. destruct f; simpl; [apply same_file_refl | reflexivity]. Qed.

Ltac split_ifs :=
  repeat match goal with
         | |- context [if ?c then _ else _] => destruct c
         | |- context [match ?x with text => _ | _ => _ end] => destruct x
         | |- context [match ?x with link => _ | _ => _ end] => destruct x
         end.

(** ** Once the embedded image is discarded, only a file brings it back *)

Lemma effects_keep_discarded prev w : discarded w -> discarded (effects prev w).
Proof.
  intros (Hfl & Hfile & Hprev & Hdata). unfold effects. rewrite Hfile.
  unfold discarded, validateURL.
  split_ifs; simpl; auto.
Qed.

Lemma handle_keeps_discarded ev w :
  selects_file ev = false -> discarded w -> discarded (handle ev w).
Proof.
  intros Hev (Hfl & Hfile & Hprev & Hdata). unfold discarded.
  destruct ev; try discriminate Hev; simpl; auto.
  rewrite Hfl. destruct k; simpl; auto.
Qed.

Lemma step_keeps_discarded w ev :
  selects_file ev = false -> discarded w -> discarded (step w ev).
Proof.
  intros Hev Hw. unfold step. destruct (rendered (ui w) ev); [|exact Hw].
  apply effects_keep_discarded, handle_keeps_discarded; assumption.
Qed.

Lemma run_keeps_discarded evs w :
  Forall (fun ev => selects_file ev = false) evs ->
  discarded w -> discarded (run w evs).
Proof.
  unfold run. revert w. induction evs as [|ev evs IH]; intros w Hevs Hw.
  - exact Hw.
  - inversion Hevs; subst. simpl. apply IH; [assumption|].
    apply step_keeps_discarded; assumption.
Qed.

Lemma discarded_embed_invalid w :
  discarded w -> inputType (ui w) = image -> imageMode (ui w) = embed ->
  getQRContent (ui w) = "" /\ hasValidContent (ui w) = false.
Proof.
  intros (_ & _ & _ & Hdata) Ht Hm.
  unfold getQRContent, hasValidContent. rewrite Ht, Hm, Hdata. split; reflexivity.
Qed.

(** What the link button does, whatever is in flight. *)
Lemma ClickLinkMode_clears w :
  inputType (ui w) = image ->
  let w1 := step w ClickLinkMode in
  imageMode (ui w1) = link /\ embedDataUrl (ui w1) = ""
  /\ imageFile (ui w1) = None /\ imagePreview (ui w1) = ""
  /\ inflight w1 = inflight w.
Proof.
  intros Ht. unfold step. simpl rendered. rewrite Ht. simpl InputType_eqb. cbv iota.
  unfold effects. simpl. rewrite Ht. unfold validateURL.
  split_ifs; simpl; auto.
Qed.

(** C8 (as amended).  Switching to link mode clears the payload, the
    selected file and the preview.  When no compression is awaited at that
    moment, then whatever the user does next short of selecting a file,
    switching back to embed mode included, the payload stays empty and the
    embed content stays invalid. *)
Theorem switching_to_link_discards_payload w evs :
  inputType (ui w) = image -> inflight w = [] ->
  Forall (fun ev => selects_file ev = false) evs ->
  let w1 := step w ClickLinkMode in
  let w2 := run w1 evs in
  (imageMode (ui w1) = link /\ embedDataUrl (ui w1) = ""
   /\ imageFile (ui w1) = None /\ imagePreview (ui w1) = "")
  /\ embedDataUrl (ui w2) = "" /\ imageFile (ui w2) = None
  /\ imagePreview (ui w2) = "" /\ inflight w2 = []
  /\ (inputType (ui w2) = image -> imageMode (ui w2) = embed ->
        getQRContent (ui w2) = "" /\ hasValidContent (ui w2) = false).
Proof.
  intros Ht Hfl Hevs w1 w2.
  destruct (ClickLinkMode_clears w Ht) as (Hm & Hd & Hf & Hp & Hi).
  fold w1 in Hm, Hd, Hf, Hp, Hi.
  split; [auto|].
  assert (Hw2 : discarded w2).
  { apply run_keeps_discarded; [exact Hevs|].
    unfold discarded. rewrite Hi, Hfl. auto. }
  pose proof Hw2 as (H1 & H2 & H3 & H4).
  repeat (split; [assumption|]).
  apply discarded_embed_invalid, Hw2.
Qed.

(** ** A settled compression is applied as it comes *)

Lemma effects_after_resume p s l :
  effects s (mkWorld (processImageFile_resume p s) l)
  = mkWorld (processImageFile_resume p s) l.
Proof.
  unfold effects.
  assert (Hu : urlContent (processImageFile_resume p s) = urlContent s)
    by (destruct p; reflexivity).
  assert (Ht : inputType (processImageFile_resume p s) = inputType s)
    by (destruct p; reflexivity).
  assert (Hi : imageUrl (processImageFile_resume p s) = imageUrl s)
    by (destruct p; reflexivity).
  assert (Hm : imageMode (processImageFile_resume p s) = imageMode s)
    by (destruct p; reflexivity).
  assert (Hf : imageFile (processImageFile_resume p s) = imageFile s)
    by (destruct p; reflexivity).
  cbn [ui]. rewrite Hu, Ht, Hi, Hm, Hf.
  rewrite !String.eqb_refl, InputType_eqb_refl,
    ImageMode_eqb_refl, same_imageFile_refl.
  reflexivity.
Qed.

(** Without a change of dependencies no effect runs. *)
Lemma effects_same w : effects (ui w) w = w.
Proof.
  unfold effects.
  rewrite !String.eqb_refl, InputType_eqb_refl,
    ImageMode_eqb_refl, same_imageFile_refl.
  reflexivity.
Qed.

(** C9 (as amended).  When an awaited compression settles, its result is
    applied whatever file is selected and whatever mode is active by then:
    a resolved payload becomes the embed payload, a rejection clears the
    payload and shows its message; the selected file and the mode are left
    as they are. *)
Theorem settled_result_is_applied_as_is w k file calls p :
  nth_error (inflight w) k = Some file ->
  compressImageToSize file 1000 = Some (calls, p) ->
  let w' := step w (Settles k) in
  imageFile (ui w') = imageFile (ui w)
  /\ imageMode (ui w') = imageMode (ui w)
  /\ match p with
     | Resolved dataUrl =>
         embedDataUrl (ui w') = dataUrl /\ isCompressing (ui w') = false
         /\ inflight w' = remove_nth k (inflight w)
     | Rejected e =>
         embedDataUrl (ui w') = "" /\ imageFileError (ui w') = message e
         /\ isCompressing (ui w') = false
         /\ inflight w' = remove_nth k (inflight w)
     | Pending => w' = w
     end.
Proof.
  intros Hk Hrun w'. subst w'. unfold step. cbn [rendered handle].
  rewrite Hk, Hrun.
  destruct p as [d | e |].
  - rewrite effects_after_resume. simpl. repeat split.
  - rewrite effects_after_resume. simpl. repeat split.
  - rewrite effects_same. repeat split.
Qed.

End TransitionTheorems.

(* ================================================================= *)
(** * The page in the small browser *)

Section InTheSmallBrowser.

#[local] Existing Instance Demo.browser.

Abbreviation generateQRCode := (Page.generateQRCode Demo.never_throws).
Abbreviation downloadQRCode := (Page.downloadQRCode Demo.never_throws).

(** Text "Hello" is encoded at level M. *)
Lemma errorCorrectionLevel_L_iff_embed_witness :
  let s := setTextContent "Hello" initialState in
  let o := mkOptions None 300 2 M "#000000" "#ffffff" in
  generateQRCode s (Some Demo.canvas)
  = [QRCode_toCanvas true "Hello" o; setQrCodeGenerated_to true]
  /\ opt_errorCorrectionLevel o = M.
Proof.
  intros s o. split; [reflexivity|].
  refine (proj1 (proj2 (errorCorrectionLevel_L_iff_embed Demo.never_throws s
            (Some Demo.canvas) (QRCode_toCanvas true "Hello" o) "Hello" o _ _)) _).
  - left. reflexivity.
  - reflexivity.
  - intros [H _]. discriminate H.
Defined.

(** An embedded image is encoded at level L, on screen and on export. *)
Example embedded_image_level :
  let s := setQrCodeGenerated true (ui (step Demo.icon_embedded (Settles 0))) in
  let o := mkOptions None 300 2 L "#000000" "#ffffff" in
  generateQRCode s (Some Demo.canvas)
  = [QRCode_toCanvas true (Demo.payload Demo.icon) o; setQrCodeGenerated_to true]
  /\ downloadQRCode s (Some Demo.canvas)
     = [save_as "qrcode.png"; toast "Download Complete"].
Proof. split; vm_compute; reflexivity. Qed.

(** An email alone gives one data line; an empty record is not encoded. *)
Lemma generateVCard_one_line_per_field_witness :
  generateVCard (mkContactInfo "" "" "ada@example.org" "")
  = join nl ["BEGIN:VCARD"; "VERSION:3.0"; "EMAIL:ada@example.org"; "END:VCARD"]
  /\ hasValidContent (setInputType contact initialState) = false
  /\ no_encoder_call (generateQRCode (setInputType contact initialState)
                                     (Some Demo.canvas)).
Proof.
  destruct (generateVCard_one_line_per_field Demo.never_throws
              (mkContactInfo "" "" "ada@example.org" "") "ada@example.org"
              (setInputType contact initialState) (Some Demo.canvas))
    as (_ & _ & Hemail & Hempty).
  split; [apply Hemail; discriminate|].
  apply Hempty; reflexivity.
Defined.

Lemma organization_alone_is_invalid_witness :
  let s := setContactInfo (mkContactInfo "" "" "" "ACME")
             (setInputType contact initialState) in
  hasValidContent s = false
  /\ no_encoder_call (generateQRCode s (Some Demo.canvas))
  /\ getQRContent s
     = join nl ["BEGIN:VCARD"; "VERSION:3.0"; "ORG:ACME"; "END:VCARD"]
  /\ getQRContent s <> "".
Proof.
  intros s.
  apply (organization_alone_is_invalid Demo.never_throws s (Some Demo.canvas) "ACME");
    [reflexivity | reflexivity | discriminate].
Defined.

(** ** Compressions in flight *)

Example icon_chosen_state :
  inflight Demo.icon_chosen = [Demo.icon; Demo.icon]
  /\ imageFile (ui Demo.icon_chosen) = Some Demo.icon
  /\ imageMode (ui Demo.icon_chosen) = embed
  /\ embedDataUrl (ui Demo.icon_chosen) = ""
  /\ isCompressing (ui Demo.icon_chosen) = true.
Proof. repeat split. Qed.

Example compressed_payloads :
  compressImageToSize Demo.icon 1000
  = Some ([mkVars 8 8 0.5%float 0], Resolved (Demo.payload Demo.icon))
  /\ compressImageToSize Demo.logo 1000
     = Some ([mkVars 16 16 0.5%float 0], Resolved (Demo.payload Demo.logo))
  /\ Demo.payload Demo.icon <> Demo.payload Demo.logo.
Proof.
  split; [vm_compute; reflexivity|]. split; [vm_compute; reflexivity|].
  vm_compute. discriminate.
Qed.

(** With both compressions of the icon settled, switching to link mode
    and back leaves nothing to encode. *)
Lemma switching_to_link_discards_payload_witness :
  let w := step Demo.icon_embedded (Settles 0) in
  let w1 := step w ClickLinkMode in
  let w2 := run w1 [ClickEmbedMode] in
  embedDataUrl (ui w) = Demo.payload Demo.icon
  /\ (imageMode (ui w1) = link /\ embedDataUrl (ui w1) = ""
      /\ imageFile (ui w1) = None /\ imagePreview (ui w1) = "")
  /\ imageMode (ui w2) = embed /\ embedDataUrl (ui w2) = ""
  /\ hasValidContent (ui w2) = false.
Proof.
  intros w w1 w2.
  destruct (switching_to_link_discards_payload w [ClickEmbedMode])
    as (Hlink & Hdata & _ & _ & _ & Hinvalid).
  - reflexivity.
  - reflexivity.
  - repeat constructor.
  - split; [vm_compute; reflexivity|]. split; [exact Hlink|].
    split; [reflexivity|]. split; [exact Hdata|].
    apply Hinvalid; reflexivity.
Defined.

(** C8, as stated, fails.  The icon is chosen in embed mode and its
    payload is shown once the first of its two compressions settles.  The
    user switches to link mode, which clears the payload; the second
    compression settles; the user switches back to embed mode without
    selecting a file: the payload is there again and is valid content. *)
Lemma payload_back_after_switching_back :
  let w := Demo.icon_embedded in
  let w1 := step w ClickLinkMode in
  let evs := [Settles 0; ClickEmbedMode] in
  let w2 := run w1 evs in
  embedDataUrl (ui w) = Demo.payload Demo.icon
  /\ inflight w = [Demo.icon]
  /\ embedDataUrl (ui w1) = "" /\ imageFile (ui w1) = None
  /\ forallb (fun ev => negb (selects_file ev)) evs = true
  /\ inputType (ui w2) = image /\ imageMode (ui w2) = embed
  /\ imageFile (ui w2) = None
  /\ embedDataUrl (ui w2) = Demo.payload Demo.icon
  /\ embedDataUrl (ui w2) <> ""
  /\ hasValidContent (ui w2) = true.
Proof.
  repeat split; try (vm_compute; reflexivity). vm_compute. discriminate.
Qed.

(** The icon's result is applied although the logo is selected by then. *)
Lemma settled_result_is_applied_as_is_witness :
  let w' := step Demo.logo_chosen (Settles 0) in
  imageFile (ui w') = Some Demo.logo
  /\ embedDataUrl (ui w') = Demo.payload Demo.icon.
Proof.
  intros w'.
  destruct (settled_result_is_applied_as_is Demo.logo_chosen 0 Demo.icon
              [mkVars 8 8 0.5%float 0] (Resolved (Demo.payload Demo.icon)))
    as (Hfile & _ & Hdata & _).
  - reflexivity.
  - vm_compute. reflexivity.
  - split; [exact Hfile | exact Hdata].
Defined.

(** C9, as stated, fails.  The logo is selected while a compression of the
    icon is still awaited.  When that compression settles, its payload,
    which is not the logo's, is stored as the embed payload; and it is
    what is left, as valid content for the selected logo, when the logo's
    results arrive first.  A result that arrives after a switch to link
    mode is stored as well. *)
Lemma stale_result_is_stored :
  let w := Demo.logo_chosen in
  let late := step w (Settles 0) in
  let last := run w [Settles 2; Settles 2; Settles 0; Settles 0] in
  let switched := run Demo.icon_chosen [ClickLinkMode; Settles 0] in
  imageFile (ui w) = Some Demo.logo
  /\ inflight w = [Demo.icon; Demo.icon; Demo.logo; Demo.logo]
  /\ same_file Demo.icon Demo.logo = false
  /\ imageFile (ui late) = Some Demo.logo
  /\ embedDataUrl (ui late) = Demo.payload Demo.icon
  /\ Demo.payload Demo.icon <> Demo.payload Demo.logo
  /\ inflight last = [] /\ imageFile (ui last) = Some Demo.logo
  /\ embedDataUrl (ui last) = Demo.payload Demo.icon
  /\ hasValidContent (ui last) = true
  /\ imageMode (ui switched) = link /\ imageFile (ui switched) = None
  /\ embedDataUrl (ui switched) = Demo.payload Demo.icon.
Proof.
  repeat split; try (vm_compute; reflexivity). vm_compute. discriminate.
Qed.

End InTheSmallBrowser.

(* ================================================================= *)
(** * Further properties of the compressor *)

Import Schedule.

(** ** The size of a payload *)

Lemma strlen_String c s : strlen (String c s) = 1 + strlen s.
Proof. unfold strlen. cbn [String.length]. lia. Qed.

Lemma countEquals_bounds s : 0 <= countEquals s <= strlen s.
Proof.
  induction s as [|c s IH]; [unfold strlen; simpl; lia|].
  rewrite strlen_String. cbn [countEquals].
  destruct (Ascii.eqb c "="); lia.
Qed.

Lemma substring_length_le n m s :
  (String.length (substring n m s) <= String.length s)%nat.
Proof.
  revert n m. induction s as [|c s IH]; intros n m.
  - destruct n, m; simpl; lia.
  - destruct n as [|n].
    + destruct m as [|m]; simpl; [lia|]. specialize (IH 0%nat m). lia.
    + simpl. specialize (IH n m). lia.
Qed.

Lemma substring_all s : substring 0 (String.length s) s = s.
Proof. induction s as [|c s IH]; simpl; [reflexivity | rewrite IH; reflexivity]. Qed.

(** The size measured on a JPEG data URL: three quarters of the characters
    that are not padding. *)
Lemma payload_of_jpeg_url body :
  getBase64PayloadBytes ("data:image/jpeg;base64," ++ body)
  = (strlen body - countEquals body) * 3 / 4.
Proof.
  unfold getBase64PayloadBytes.
  assert (Hi : indexOf ("data:image/jpeg;base64," ++ body) "base64,"
               = Some 16%nat) by (destruct body; vm_compute; reflexivity).
  rewrite Hi.
  assert (Hd : substring_from (16 + 7) ("data:image/jpeg;base64," ++ body) = body).
  { unfold substring_from.
    cbn [append String.length Nat.add Nat.sub substring].
    rewrite Nat.sub_0_r. apply substring_all. }
  rewrite Hd. reflexivity.
Qed.

Lemma digit_not_padding n : Ascii.eqb (Base64.digit n) "=" = false.
Proof.
  unfold Base64.digit. generalize (N.to_nat n). intros k.
  do 64 (destruct k as [|k]; [reflexivity|]). reflexivity.
Qed.

Lemma three_step_ind {A : Type} (P : list A -> Prop) :
  P [] -> (forall a, P [a]) -> (forall a b, P [a; b]) ->
  (forall a b c rest, P rest -> P (a :: b :: c :: rest)) ->
  forall l, P l.
Proof.
  intros H0 H1 H2 H3 l.
  assert (H : P l /\ (forall a, P (a :: l)) /\ (forall a b, P (a :: b :: l))).
  { induction l as [|x l (IH0 & IH1 & IH2)]; [auto|].
    split; [exact (IH1 x)|]. split; [exact (fun a => IH2 a x)|].
    exact (fun a b => H3 a b x l IH0). }
  apply H.
Qed.

Lemma encode_unpadded bytes :
  (strlen (Base64.encode bytes) - countEquals (Base64.encode bytes)) * 3 / 4
  = Z.of_nat (List.length bytes).
Proof.
  induction bytes as [| a | a b | a b c rest IH] using three_step_ind.
  - reflexivity.
  - cbn [Base64.encode]. rewrite !strlen_String. cbn [countEquals].
    rewrite !digit_not_padding. reflexivity.
  - cbn [Base64.encode]. rewrite !strlen_String. cbn [countEquals].
    rewrite !digit_not_padding. reflexivity.
  - cbn [Base64.encode]. rewrite !strlen_String. cbn [countEquals List.length].
    rewrite !digit_not_padding.
    replace ((1 + (1 + (1 + (1 + strlen (Base64.encode rest))))
              - (0 + (0 + (0 + (0 + countEquals (Base64.encode rest)))))) * 3)
      with ((strlen (Base64.encode rest) - countEquals (Base64.encode rest)) * 3
            + 3 * 4) by lia.
    rewrite Z.div_add by lia. rewrite IH. lia.
Qed.

(** X1. On the data URL of a JPEG whose payload is the padded base64 of a
    byte sequence, [getBase64PayloadBytes] is the number of bytes. *)
Theorem getBase64PayloadBytes_counts_bytes (bytes : list Byte.byte) :
  getBase64PayloadBytes ("data:image/jpeg;base64," ++ Base64.encode bytes)
  = Z.of_nat (List.length bytes).
Proof. rewrite payload_of_jpeg_url. apply encode_unpadded. Qed.

(** X2. Whatever the string, the size [getBase64PayloadBytes] reports is
    not negative and not above the length of the string. *)
Theorem getBase64PayloadBytes_bounds (dataUrl : string) :
  0 <= getBase64PayloadBytes dataUrl <= strlen dataUrl.
Proof.
  unfold getBase64PayloadBytes.
  destruct (indexOf dataUrl "base64,") as [i|]; [|unfold strlen; lia].
  set (data := substring_from (i + 7) dataUrl).
  pose proof (countEquals_bounds data) as Hpad.
  assert (Hlen : strlen data <= strlen dataUrl).
  { unfold data, substring_from, strlen.
    pose proof (substring_length_le (i + 7)
                  (String.length dataUrl - (i + 7)) dataUrl).
    lia. }
  split.
  - apply Z.div_pos; lia.
  - assert ((strlen data - countEquals data) * 3 / 4
            <= strlen data - countEquals data)
      by (apply Z.div_le_upper_bound; lia).
    lia.
Qed.

Example encode_Man :
  Base64.encode [Byte.x4d; Byte.x61; Byte.x6e] = "TWFu"
  /\ Base64.encode [Byte.x4d; Byte.x61] = "TWE="
  /\ Base64.encode [Byte.x4d] = "TQ==".
Proof. repeat split. Qed.

(** ** Shrinking a side *)

Lemma shrinks_bounds n side :
  0 <= side <= 128 ->
  0 <= shrinks n side <= 128
  /\ Z.min 24 side <= shrinks n side <= Z.max 24 side.
Proof.
  intros Hs. induction n as [|n [IH1 IH2]]; simpl; [lia|].
  destruct (shrink_bounds (shrinks n side) IH1) as [Hb Hle].
  rewrite (shrink_exact _ IH1) in *.
  assert (shrinks n side * 9 / 10 <= shrinks n side)
    by (apply Z.div_le_upper_bound; lia).
  lia.
Qed.

(** X7. For every side from 0 to 128, the double product [side * 0.9]
    floored is the integer [side * 9 / 10] floored: a shrinking is
    [max 24 (side * 9 / 10)], and fifteen shrinkings bring any such side to
    24. *)
Theorem shrink_is_nine_tenths (side : Z) :
  0 <= side <= 128 ->
  Math_floor (number_of_Z side * 0.9)%float = side * 9 / 10
  /\ shrink side = Z.max 24 (side * 9 / 10)
  /\ shrinks 15 side = 24.
Proof.
  intros Hs.
  assert (H : forallb (fun n =>
                (Math_floor (number_of_Z (Z.of_nat n) * 0.9)%float
                 =? Z.of_nat n * 9 / 10)
                && (shrinks 15 (Z.of_nat n) =? 24))
              (seq 0 129) = true) by (vm_compute; reflexivity).
  rewrite forallb_forall in H. specialize (H (Z.to_nat side)).
  rewrite Z2Nat.id in H by lia.
  destruct (andb_prop _ _ (H ltac:(apply in_seq; lia))) as [H1 H2].
  apply Z.eqb_eq in H1, H2.
  split; [exact H1|]. split; [|exact H2].
  unfold shrink. rewrite H1. reflexivity.
Qed.

Lemma shrink_is_nine_tenths_witness :
  Math_floor (number_of_Z 115 * 0.9)%float = 103
  /\ shrink 115 = 103 /\ shrinks 15 115 = 24.
Proof. apply (shrink_is_nine_tenths 115). lia. Defined.

(** ** The attempts the loop makes *)

Lemma sweep_next k :
  (k < 10)%nat ->
  (0.05 <? nth k sweep 0.5)%float = true
  /\ Math_max 0.05 (nth k sweep 0.5 - 0.05)%float = nth (S k) sweep 0.5%float.
Proof.
  intros Hk.
  do 10 (destruct k as [|k]; [split; vm_compute; reflexivity|]). lia.
Qed.

Lemma sweep_floor k :
  (k < 11)%nat ->
  (nth k sweep 0.5 <=? 0.05)%float = true <-> k = 10%nat.
Proof.
  intros Hk.
  do 10 (destruct k as [|k];
         [split; [vm_compute; discriminate | discriminate]|]).
  destruct k; [|lia]. split; [reflexivity | vm_compute; reflexivity].
Qed.

Lemma sweep_last : (0.05 <? nth 10 sweep 0.5)%float = false.
Proof. vm_compute. reflexivity. Qed.

Lemma sweep_nth_bounds k :
  (0.05 <=? nth k sweep 0.5)%float = true
  /\ (nth k sweep 0.5 <=? 0.5)%float = true.
Proof.
  do 11 (destruct k as [|k]; [split; vm_compute; reflexivity|]).
  destruct k; split; vm_compute; reflexivity.
Qed.

Section ScheduleFacts.

Context {B : Browser}.
Variable img : Bitmap.
Variable maxSizeBytes : Z.

Abbreviation compress := (Compressor.compress img maxSizeBytes).
Abbreviation compress_loop := (Compressor.compress_loop img maxSizeBytes).
Abbreviation payloadAt := (Spec.payloadAt img).

(** Call number [i] is entered with the locals the schedule gives. *)
Lemma calls_follow_schedule fuel v0 calls p :
  compress_loop fuel v0 = Some (calls, p) ->
  quality v0 = 0.5%float -> attempts v0 = 0 ->
  forall i v, nth_error calls i = Some v ->
    v = scheduled (width v0) (height v0) i.
Proof.
  intros Hrun Hq Ha.
  destruct (compress_loop_linked _ _ _ _ _ _ Hrun) as [Hhd Hlink].
  induction i as [|i IH]; intros v Hv.
  - rewrite Hhd in Hv. injection Hv as <-.
    destruct v0 as [w h q a]. simpl in Hq, Ha. subst. reflexivity.
  - destruct (nth_error calls i) as [a|] eqn:Hi.
    + specialize (IH a eq_refl).
      pose proof (Hlink i a v Hi Hv) as Hc.
      apply compress_Timeout in Hc.
      destruct Hc as (_ & _ & _ & _ & Hv').
      assert (Hk : (i mod 11 < 11)%nat) by (apply Nat.mod_upper_bound; lia).
      pose proof (Nat.div_mod_eq i 11) as Hdm.
      rewrite IH in Hv'. unfold scheduled in Hv'.
      cbn [width height quality attempts] in Hv'.
      destruct (Nat.eq_dec (i mod 11) 10) as [E | E].
      * rewrite E, sweep_last in Hv'.
        destruct Hv' as [[Hlt _] | [_ ->]]; [discriminate|].
        unfold scheduled.
        assert (Hd : (S i / 11 = S (i / 11))%nat)
          by (symmetry; apply (Nat.div_unique _ 11 _ 0); lia).
        assert (Hm : (S i mod 11 = 0)%nat)
          by (symmetry; apply (Nat.mod_unique _ 11 (S (i / 11))); lia).
        rewrite Hd, Hm. cbn [shrinks].
        f_equal. lia.
      * destruct (sweep_next (i mod 11) ltac:(lia)) as [Hlt Hnext].
        rewrite Hlt, Hnext in Hv'.
        destruct Hv' as [[_ ->] | [Hf _]]; [|discriminate].
        unfold scheduled.
        assert (Hd : (S i / 11 = i / 11)%nat)
          by (symmetry; apply (Nat.div_unique _ 11 _ (S (i mod 11))); lia).
        assert (Hm : (S i mod 11 = S (i mod 11))%nat)
          by (symmetry; apply (Nat.mod_unique _ 11 (i / 11)); lia).
        rewrite Hd, Hm. f_equal. lia.
    + apply nth_error_None in Hi.
      assert (nth_error calls (S i) = None) by (apply nth_error_None; lia).
      congruence.
Qed.

(** The last call is the one that ends the loop. *)
Lemma compress_loop_last fuel v calls p :
  compress_loop fuel v = Some (calls, p) ->
  exists last,
    nth_error calls (List.length calls - 1) = Some last
    /\ (compress last = Settle p \/ (compress last = Return /\ p = Pending)).
Proof.
  revert v calls p.
  induction fuel as [|fuel IH]; intros v calls p Hrun; [discriminate|].
  simpl in Hrun. destruct (compress v) as [p0 | v' |] eqn:Hc.
  - injection Hrun as <- <-. exists v. split; [reflexivity | left; exact Hc].
  - destruct (Compressor.compress_loop img maxSizeBytes fuel v')
      as [[calls' p']|] eqn:Hrec; [|discriminate].
    injection Hrun as <- <-. destruct (IH _ _ _ Hrec) as (last & Hlast & Hend).
    exists last. split; [|exact Hend].
    pose proof (compress_loop_length _ _ _ _ _ _ Hrec) as Hlen.
    cbn [List.length].
    replace (S (List.length calls') - 1)%nat
      with (S (List.length calls' - 1)) by lia.
    exact Hlast.
  - injection Hrun as <- <-. exists v. split; [reflexivity | right; auto].
Qed.

End ScheduleFacts.

Lemma wide_sides_stay_above_floor side level :
  36 <= side <= 128 -> (level <= 3)%nat -> 24 < shrinks level side.
Proof.
  intros Hs Hl.
  assert (H : forallb (fun n => forallb (fun l => 24 <? shrinks l (Z.of_nat n))
                                        [0; 1; 2; 3]%nat)
                      (seq 36 93) = true) by (vm_compute; reflexivity).
  rewrite forallb_forall in H. specialize (H (Z.to_nat side)).
  rewrite Z2Nat.id in H by lia.
  specialize (H ltac:(apply in_seq; lia)).
  rewrite forallb_forall in H. apply Z.ltb_lt, H.
  destruct level as [|[|[|[|l]]]]; simpl; auto. lia.
Qed.

Section ScheduleTheorems.

Context {B : Browser}.

(** X3. The attempts are fixed in advance: as long as the loop runs, call
    number [i] (from 0) is entered with [attempts = i], with the quality
    at position [i mod 11] of the sweep 0.5, 0.45, ..., 0.05 (eleven
    values, rounding gives the value before last as just above 0.05), and
    with each side shrunk [i / 11] times from its start, the smaller of
    the image side and 128. *)
Theorem compress_calls_are_scheduled (file : File) (img : Bitmap)
    (maxSizeBytes : Z) (calls : list Vars) (p : Promise) (i : nat) (v : Vars) :
  decode file = Some img ->
  compressImageToSize file maxSizeBytes = Some (calls, p) ->
  nth_error calls i = Some v ->
  attempts v = Z.of_nat i
  /\ quality v = nth (i mod 11) sweep 0.5%float
  /\ width v = shrinks (i / 11) (Z.min (Z.of_N (bitmap_width img)) 128)
  /\ height v = shrinks (i / 11) (Z.min (Z.of_N (bitmap_height img)) 128).
Proof.
  unfold compressImageToSize. intros -> Hrun Hv.
  rewrite (calls_follow_schedule _ _ _ _ _ _ Hrun eq_refl eq_refl i v Hv).
  repeat split.
Qed.

(** X4. The loop stops at the first call that fits: every call before the
    last measured a payload above the budget; a resolved promise carries
    the data URL encoded with the locals of the last call, and it fits; a
    rejection carries the size measured by the last call, which is above
    the budget. *)
Theorem compress_loop_first_fit (img : Bitmap) (maxSizeBytes : Z)
    (fuel : nat) (calls : list Vars) (p : Promise) :
  compress_loop img maxSizeBytes fuel (initial img) = Some (calls, p) ->
  exists last,
    nth_error calls (List.length calls - 1) = Some last
    /\ (forall i a, (i < List.length calls - 1)%nat ->
          nth_error calls i = Some a -> payloadAt img a > maxSizeBytes)
    /\ match p with
       | Resolved dataUrl =>
           dataUrl = toDataURL img (width last) (height last) (quality last)
           /\ payloadAt img last <= maxSizeBytes
       | Rejected e =>
           e = TooLarge (payloadAt img last) maxSizeBytes
           /\ payloadAt img last > maxSizeBytes
       | Pending => getContext2d = false
       end.
Proof.
  intros Hrun.
  destruct (compress_loop_last _ _ _ _ _ _ Hrun) as (last & Hlast & Hend).
  destruct (compress_loop_linked _ _ _ _ _ _ Hrun) as [_ Hlink].
  exists last. split; [exact Hlast|]. split.
  - intros i a Hi Ha.
    destruct (nth_error calls (S i)) as [b|] eqn:Hb.
    + apply (compress_Timeout _ _ _ _ (Hlink i a b Ha Hb)).
    + apply nth_error_None in Hb. lia.
  - destruct Hend as [Hc | [Hc ->]].
    + apply compress_Settle in Hc.
      destruct Hc as [[-> Hfit] | (-> & Hgt & _)]; split; auto.
    + apply (proj1 (compress_Return _ _ _) Hc).
Qed.

(** X5. An image at least 36 pixels wide is never rejected by the floor
    test: when the loop rejects it, it has made all 50 calls, and the last
    one was at the fifth size (four shrinkings) with quality
    0.25000000000000006. *)
Theorem wide_image_rejected_after_50_calls (img : Bitmap) (maxSizeBytes : Z)
    (calls : list Vars) (e : CompressError) :
  36 <= Z.of_N (bitmap_width img) ->
  compress_loop img maxSizeBytes (Z.to_nat maxAttempts) (initial img)
  = Some (calls, Rejected e) ->
  List.length calls = 50%nat
  /\ nth_error calls 49
     = Some (scheduled (Z.min (Z.of_N (bitmap_width img)) 128)
                       (Z.min (Z.of_N (bitmap_height img)) 128) 49).
Proof.
  intros Hwide Hrun.
  destruct (compress_loop_last _ _ _ _ _ _ Hrun) as (last & Hlast & Hend).
  pose proof (compress_loop_length _ _ _ _ _ _ Hrun) as Hlen.
  unfold initial at 1, maxAttempts in Hlen. cbn [attempts] in Hlen.
  pose proof (calls_follow_schedule _ _ _ _ _ _ Hrun eq_refl eq_refl _ _ Hlast)
    as Hsched.
  cbn [initial width height] in Hsched.
  assert (Hfifty : List.length calls = 50%nat).
  { destruct Hend as [Hc | [_ Hp]]; [|discriminate Hp].
    apply compress_Settle in Hc.
    destruct Hc as [[Hp _] | (_ & _ & [Hatt | [Hw Hq]])]; [discriminate Hp | |].
    - rewrite Hsched in Hatt. unfold scheduled, maxAttempts in Hatt.
      cbn [attempts] in Hatt. lia.
    - exfalso. rewrite Hsched in Hw, Hq. unfold scheduled in Hw, Hq.
      cbn [width quality] in Hw, Hq.
      set (i := (List.length calls - 1)%nat) in *.
      assert (Hk : (i mod 11 < 11)%nat) by (apply Nat.mod_upper_bound; lia).
      apply (sweep_floor _ Hk) in Hq.
      pose proof (Nat.div_mod_eq i 11) as Hdm.
      assert (Hlevel : (i / 11 <= 3)%nat) by lia.
      pose proof (wide_sides_stay_above_floor
                    (Z.min (Z.of_N (bitmap_width img)) 128) (i / 11)
                    ltac:(lia) Hlevel).
      lia. }
  split; [exact Hfifty|].
  rewrite Hfifty in Hlast. cbn [Nat.sub] in Hlast.
  rewrite Hlast, Hsched, Hfifty. reflexivity.
Qed.

(** X6. No call leaves the range the image gives: each side stays between
    [min 24 side0] and [max 24 side0], where [side0] is the smaller of the
    image side and 128 (so the canvas is never larger than 128 pixels, and
    larger than the image only to reach 24 pixels), and the quality stays
    between 0.05 and 0.5. *)
Theorem compress_calls_within_range (img : Bitmap) (maxSizeBytes : Z)
    (fuel : nat) (calls : list Vars) (p : Promise) (i : nat) (v : Vars) :
  compress_loop img maxSizeBytes fuel (initial img) = Some (calls, p) ->
  nth_error calls i = Some v ->
  let width0 := Z.min (Z.of_N (bitmap_width img)) 128 in
  let height0 := Z.min (Z.of_N (bitmap_height img)) 128 in
  Z.min 24 width0 <= width v <= Z.max 24 width0
  /\ Z.min 24 height0 <= height v <= Z.max 24 height0
  /\ width v <= 128 /\ height v <= 128
  /\ float_le 0.05 (quality v) /\ float_le (quality v) 0.5.
Proof.
  intros Hrun Hv width0 height0.
  rewrite (calls_follow_schedule _ _ _ _ _ _ Hrun eq_refl eq_refl i v Hv).
  unfold scheduled. cbn [initial width height quality].
  fold width0 height0.
  destruct (shrinks_bounds (i / 11) width0 ltac:(unfold width0; lia)) as [Hw1 Hw2].
  destruct (shrinks_bounds (i / 11) height0 ltac:(unfold height0; lia)) as [Hh1 Hh2].
  destruct (sweep_nth_bounds (i mod 11)) as [Hq1 Hq2].
  repeat split; try lia; assumption.
Qed.

End ScheduleTheorems.

(* ================================================================= *)
(** * Further properties of content resolution, rendering and export *)

(** ** The contact block *)

Lemma data_lines_injective a b : data_lines a = data_lines b -> a = b.
Proof.
  destruct a as [an ap ae ao], b as [bn bp be bo].
  unfold data_lines, present. cbn [name phone email organization].
  destruct an, ap, ae, ao, bn, bp, be, bo; cbn [truthy List.app append];
    intros H; congruence.
Qed.

(** X8. When no field holds a line feed, the lines of the contact block
    are BEGIN:VCARD, VERSION:3.0, one line per non-empty field and
    END:VCARD: three lines more than there are non-empty fields. *)
Theorem generateVCard_line_count (info : ContactInfo) :
  single_line (name info) = true -> single_line (organization info) = true ->
  single_line (phone info) = true -> single_line (email info) = true ->
  lines (generateVCard info)
  = (["BEGIN:VCARD"; "VERSION:3.0"] ++ data_lines info ++ ["END:VCARD"])%list
  /\ List.length (lines (generateVCard info))
     = (3 + (filled (name info) + filled (organization info)
             + filled (phone info) + filled (email info)))%nat.
Proof.
  intros Hn Ho Hp He.
  rewrite (generateVCard_lines info Hn Ho Hp He). split; [reflexivity|].
  cbn [List.app List.length]. rewrite List.length_app, data_lines_length.
  cbn [List.length]. lia.
Qed.

(** X9. Two contact records without line feeds in their fields have the
    same block only when they are the same record. *)
Theorem generateVCard_injective (a b : ContactInfo) :
  single_line (name a) = true -> single_line (organization a) = true ->
  single_line (phone a) = true -> single_line (email a) = true ->
  single_line (name b) = true -> single_line (organization b) = true ->
  single_line (phone b) = true -> single_line (email b) = true ->
  generateVCard a = generateVCard b -> a = b.
Proof.
  intros Han Hao Hap Hae Hbn Hbo Hbp Hbe Heq.
  apply (f_equal lines) in Heq.
  rewrite (generateVCard_lines a), (generateVCard_lines b) in Heq by assumption.
  apply app_inv_head, app_inv_tail in Heq.
  apply data_lines_injective, Heq.
Qed.

(** A line feed in a field lets it pass for another field. *)
Example generateVCard_line_feed_forges_a_field :
  generateVCard (mkContactInfo ("Ada" ++ nl ++ "ORG:ACME") "" "" "")
  = generateVCard (mkContactInfo "Ada" "" "" "ACME").
Proof. reflexivity. Qed.

(** ** Rendering *)

Section MoreRenderTheorems.

Context {B : Browser}.
Variable qr_throws : string -> Options -> bool.

Abbreviation generateQRCode := (Page.generateQRCode qr_throws).
Abbreviation downloadQRCode := (Page.downloadQRCode qr_throws).

Lemma generateVCard_truthy info : truthy (generateVCard info) = true.
Proof.
  unfold generateVCard.
  destruct (truthy (name info)), (truthy (organization info)),
    (truthy (phone info)), (truthy (email info)); reflexivity.
Qed.

(** Valid content is never empty. *)
Lemma valid_content_truthy s :
  hasValidContent s = true -> truthy (getQRContent s) = true.
Proof.
  unfold hasValidContent, getQRContent.
  destruct (inputType s).
  - rewrite strlen_positive. auto.
  - rewrite strlen_positive. intros H. apply andb_prop in H. apply H.
  - intros _. apply generateVCard_truthy.
  - destruct (imageMode s); rewrite strlen_positive; intros H.
    + apply andb_prop in H. apply H.
    + apply andb_prop in H. destruct H as [H _].
      apply andb_prop in H. apply H.
Qed.

(** X10. Validity alone decides whether [generateQRCode] encodes: with a
    canvas and valid content it makes exactly one encoder call, the first
    action, on the resolved content at the on-screen size; with invalid
    content or without a canvas it makes none. *)
Theorem generateQRCode_encodes_iff_valid s canvasRef :
  (hasValidContent s = true -> canvasRef <> None ->
     exists o rest,
       generateQRCode s canvasRef
       = QRCode_toCanvas true (getQRContent s) o :: rest
       /\ opt_width o = qrSize s
       /\ no_encoder_call rest)
  /\ (hasValidContent s = false \/ canvasRef = None ->
        no_encoder_call (generateQRCode s canvasRef)).
Proof.
  split.
  - intros Hv Hc. unfold Page.generateQRCode.
    rewrite (valid_content_truthy s Hv), Hv. cbn [negb orb].
    destruct canvasRef as [c|]; [|congruence].
    eexists _, _. split; [reflexivity|]. split; [reflexivity|].
    intros a Ha. destruct (qr_throws _ _); simpl in Ha;
      destruct Ha as [<- | []]; reflexivity.
  - intros [Hv | ->].
    + apply generateQRCode_invalid_no_call. right. exact Hv.
    + intros a. unfold Page.generateQRCode.
      destruct (negb (truthy (getQRContent s)) || negb (hasValidContent s));
        simpl; intuition (subst; reflexivity).
Qed.

(** X11. In URL mode [generateQRCode] encodes only when [new URL] accepts
    the input as typed, and what it encodes is the input trimmed, not a
    normalised URL. *)
Theorem url_mode_encodes_parsed_input s canvasRef a content o :
  inputType s = url ->
  In a (generateQRCode s canvasRef) -> encoder_call a = Some (content, o) ->
  parsesAsURL (urlContent s) = true
  /\ content = trim (urlContent s) /\ content <> "".
Proof.
  intros Ht Hin Hcall.
  destruct (generateQRCode_call _ _ _ _ _ _ Hin Hcall) as (Hc & Hne & Hv & _).
  unfold hasValidContent, getQRContent in *. rewrite Ht in *.
  apply andb_prop in Hv. destruct Hv as [_ Hv]. unfold isValidURL in Hv.
  destruct (negb (truthy (trim (urlContent s)))); [discriminate|]. auto.
Qed.

(** ** Export *)

(** X12. [downloadQRCode] saves a file only when a code has been generated
    and the resolved content is not empty, under the name of the chosen
    format, with a canvas unless the format is SVG, and never after an
    encoder call that threw. *)
Theorem downloadQRCode_saves_only_generated s canvasRef f :
  In (save_as f) (downloadQRCode s canvasRef) ->
  qrCodeGenerated s = true
  /\ getQRContent s <> ""
  /\ f = filename (exportFormat s)
  /\ (exportFormat s = svg \/ canvasRef <> None)
  /\ (forall a content o, In a (downloadQRCode s canvasRef) ->
        encoder_call a = Some (content, o) -> qr_throws content o = false).
Proof.
  unfold Page.downloadQRCode.
  destruct (qrCodeGenerated s); cbn [negb];
    [|intros [H | []]; discriminate H].
  destruct (truthy (getQRContent s)) eqn:Hc; cbn [negb]; [|intros []].
  assert (Hne : getQRContent s <> "")
    by (intros E; rewrite E in Hc; discriminate).
  destruct (exportFormat s); [destruct canvasRef as [c|]; [|intros []] ..|].
  - destruct (negb (exportResolution s =? qrSize s)).
    + destruct (qr_throws _ _) eqn:Hthrow; simpl.
      * intuition (try discriminate).
      * intros [H | [H | [H | []]]]; try discriminate H. injection H as <-.
        repeat split; auto; try (right; discriminate).
        intros a content o [<- | [<- | [<- | []]]]; simpl; try discriminate.
        intros [= <- <-]. exact Hthrow.
    + simpl. intros [H | [H | []]]; try discriminate H. injection H as <-.
      repeat split; auto; try (right; discriminate).
      intros a content o [<- | [<- | []]]; discriminate.
  - destruct (qr_throws _ _) eqn:Hthrow; simpl.
    + intuition (try discriminate).
    + intros [H | [H | [H | []]]]; try discriminate H. injection H as <-.
      repeat split; auto; try (right; discriminate).
      intros a content o [<- | [<- | [<- | []]]]; simpl; try discriminate.
      intros [= <- <-]. exact Hthrow.
  - destruct (qr_throws _ _) eqn:Hthrow; simpl.
    + intuition (try discriminate).
    + intros [H | [H | [H | []]]]; try discriminate H. injection H as <-.
      repeat split; auto.
      intros a content o [<- | [<- | [<- | []]]]; simpl; try discriminate.
      intros [= <- <-]. exact Hthrow.
Qed.

End MoreRenderTheorems.

(* ================================================================= *)
(** * Further properties of the image handlers and effects *)

Import Hooks.

Section HookFacts.

Context {B : Browser}.

(** [effects] is its three hooks in the order of the source. *)
Lemma effects_decompose prev w :
  effects prev w
  = effect_processImageFile prev (ui w)
      (mkWorld (effect_imageUrlError prev (ui w)
                  (effect_validateURL prev (ui w) (ui w)))
               (inflight w)).
Proof.
  destruct w as [s l].
  unfold effects, effect_processImageFile, effect_imageUrlError,
    effect_validateURL.
  cbn [ui inflight].
  repeat match goal with
         | |- context [if ?c then _ else _] => destruct c
         | |- context [match inputType s with _ => _ end] =>
             destruct (inputType s)
         | |- context [match imageMode s with _ => _ end] =>
             destruct (imageMode s)
         | |- context [match imageFile s with _ => _ end] =>
             destruct (imageFile s)
         end; reflexivity.
Qed.

Ltac split_matches :=
  repeat match goal with
         | |- context [match ?x with _ => _ end] => destruct x eqn:?
         end.

Ltac by_hooks :=
  rewrite effects_decompose;
  unfold effect_processImageFile, effect_imageUrlError, effect_validateURL,
    processImageFile, validateURL;
  cbn [ui inflight]; split_matches; cbn.

Ltac by_handler ev :=
  destruct ev; cbn [handle rendered] in *;
  unfold processImageFile, processImageFile_resume;
  cbn [ui inflight]; split_matches; cbn.

Lemma resolved_fits file maxSizeBytes calls dataUrl :
  compressImageToSize file maxSizeBytes = Some (calls, Resolved dataUrl) ->
  getBase64PayloadBytes dataUrl <= maxSizeBytes.
Proof.
  unfold compressImageToSize. destruct (decode file) as [img|]; [|discriminate].
  intros Hrun. exact (compress_loop_outcome _ _ _ _ _ _ Hrun).
Qed.


Lemma empty_payload_fits : getBase64PayloadBytes "" <= 1000.
Proof. vm_compute. discriminate. Qed.

Lemma effects_keep_payload prev w :
  embedDataUrl (ui (effects prev w)) = embedDataUrl (ui w).
Proof. by_hooks; reflexivity. Qed.

Lemma handle_payload_fits ev w :
  getBase64PayloadBytes (embedDataUrl (ui w)) <= 1000 ->
  getBase64PayloadBytes (embedDataUrl (ui (handle ev w))) <= 1000.
Proof.
  intros H. destruct ev; cbn [handle]; try exact H.
  - exact empty_payload_fits.
  - unfold processImageFile. split_matches; exact H.
  - unfold processImageFile. split_matches; exact H.
  - destruct (nth_error (inflight w) k) as [file|]; [|exact H].
    destruct (compressImageToSize file 1000) as [[calls [d | e |]]|] eqn:Hrun;
      try exact H.
    + exact (resolved_fits _ _ _ _ Hrun).
    + exact empty_payload_fits.
Qed.

(** *** The state of the two image modes *)

Lemma effects_keep_mode prev w :
  imageMode (ui (effects prev w)) = imageMode (ui w)
  /\ inputType (ui (effects prev w)) = inputType (ui w)
  /\ imageUrl (ui (effects prev w)) = imageUrl (ui w)
  /\ urlContent (ui (effects prev w)) = urlContent (ui w).
Proof. by_hooks; repeat split; congruence. Qed.

Lemma effects_link_file prev w :
  imageMode (ui w) = link ->
  imageFile (ui (effects prev w)) = imageFile (ui w)
  /\ imagePreview (ui (effects prev w)) = imagePreview (ui w).
Proof. intros Hm. by_hooks; try congruence; split; congruence. Qed.

Lemma effects_embed_url prev w :
  imageMode (ui w) = embed ->
  imageUrlError (ui (effects prev w)) = imageUrlError (ui w).
Proof. intros Hm. by_hooks; congruence. Qed.

Lemma rendered_in_embed w ev :
  selects_file ev = true -> rendered (ui w) ev = true ->
  imageMode (ui w) = embed.
Proof.
  destruct ev; try discriminate; intros _ Hr; cbn [rendered] in Hr;
    apply andb_prop in Hr; destruct Hr as [_ Hr];
    destruct (imageMode (ui w)); [discriminate | reflexivity |
                                  discriminate | reflexivity].
Qed.

Lemma handle_link_has_no_file ev w :
  rendered (ui w) ev = true ->
  (imageMode (ui w) = link ->
   imageFile (ui w) = None /\ imagePreview (ui w) = "") ->
  imageMode (ui (handle ev w)) = link ->
  imageFile (ui (handle ev w)) = None /\ imagePreview (ui (handle ev w)) = "".
Proof.
  intros Hr Hw.
  destruct (selects_file ev) eqn:Hsel.
  - pose proof (rendered_in_embed w ev Hsel Hr) as He.
    destruct ev; try discriminate Hsel; cbn [handle];
      unfold processImageFile; rewrite He; split_matches; cbn;
      rewrite ?He; discriminate.
  - by_handler ev; try discriminate Hsel; intros Hm; auto; discriminate.
Qed.

Lemma handle_embed_has_no_url ev w :
  rendered (ui w) ev = true ->
  (imageMode (ui w) = embed ->
   imageUrl (ui w) = "" /\ imageUrlError (ui w) = "") ->
  imageMode (ui (handle ev w)) = embed ->
  imageUrl (ui (handle ev w)) = "" /\ imageUrlError (ui (handle ev w)) = "".
Proof.
  intros Hr Hw.
  by_handler ev; intros Hm; auto; try discriminate;
    try congruence;
    try (rewrite Hm, andb_false_r in Hr; discriminate).
Qed.

(** *** Compressions under way *)

Lemma processImageFile_awaited closure file w :
  isCompressing (ui (processImageFile closure file w)) = true ->
  inflight (processImageFile closure file w) <> [].
Proof.
  unfold processImageFile. split_matches; cbn; try discriminate.
  intros _ E. apply app_eq_nil in E. destruct E; discriminate.
Qed.

Lemma handle_compressing_awaited ev w :
  (isCompressing (ui w) = true -> inflight w <> []) ->
  isCompressing (ui (handle ev w)) = true -> inflight (handle ev w) <> [].
Proof.
  intros Hw.
  destruct ev; cbn [handle]; try exact Hw;
    try apply processImageFile_awaited.
  - destruct (startsWith (file_type file) "image/");
      [apply processImageFile_awaited | exact Hw].
  - unfold processImageFile_resume. split_matches; cbn; auto; discriminate.
Qed.

Lemma effects_compressing_awaited prev w :
  (isCompressing (ui w) = true -> inflight w <> []) ->
  isCompressing (ui (effects prev w)) = true -> inflight (effects prev w) <> [].
Proof.
  intros Hw. rewrite effects_decompose.
  unfold effect_processImageFile.
  split_matches; try apply processImageFile_awaited;
    unfold effect_imageUrlError, effect_validateURL, validateURL;
    cbn [ui inflight]; split_matches; cbn; exact Hw.
Qed.

(** *** The two error texts *)

Lemma InputType_eqb_eq a b : InputType_eqb a b = true -> a = b.
Proof. destruct a, b; simpl; congruence. Qed.

Lemma ImageMode_eqb_eq a b : ImageMode_eqb a b = true -> a = b.
Proof. destruct a, b; simpl; congruence. Qed.

Lemma validateURL_urlError u s :
  urlError (validateURL u s) = snd (validateImageURL u).
Proof.
  unfold validateURL, validateImageURL.
  destruct (negb (truthy (trim u))); [reflexivity|].
  destruct (parsesAsURL u); reflexivity.
Qed.

Lemma handle_keeps_urlError ev w :
  urlError (ui (handle ev w)) = urlError (ui w).
Proof. by_handler ev; reflexivity. Qed.

Lemma effects_urlError prev w :
  inputType (ui w) = url ->
  (urlContent prev = urlContent (ui w) -> inputType prev = inputType (ui w) ->
   urlError (ui w) = snd (validateImageURL (urlContent (ui w)))) ->
  urlError (ui (effects prev w)) = snd (validateImageURL (urlContent (ui w))).
Proof.
  intros Ht Hsame. rewrite effects_decompose.
  assert (H3 : forall cur w0,
             urlError (ui (effect_processImageFile prev cur w0)) = urlError (ui w0)).
  { intros cur w0. unfold effect_processImageFile, processImageFile.
    split_matches; reflexivity. }
  assert (H2 : forall cur s,
             urlError (effect_imageUrlError prev cur s) = urlError s).
  { intros cur s. unfold effect_imageUrlError. split_matches; reflexivity. }
  rewrite H3. cbn [ui]. rewrite H2.
  unfold effect_validateURL. rewrite Ht.
  destruct (negb (urlContent prev =? urlContent (ui w))%string
            || negb (InputType_eqb (inputType prev) url)) eqn:Hdeps.
  - apply validateURL_urlError.
  - apply orb_false_elim in Hdeps. destruct Hdeps as [H1 H4].
    apply negb_false_iff in H1, H4.
    apply String.eqb_eq in H1. apply InputType_eqb_eq in H4.
    apply Hsame; congruence.
Qed.

Lemma effects_imageUrlError prev w :
  inputType (ui w) = image -> imageMode (ui w) = link ->
  (imageUrl prev = imageUrl (ui w) -> inputType prev = inputType (ui w) ->
   imageMode prev = imageMode (ui w) ->
   imageUrlError (ui w) = snd (validateImageURL (imageUrl (ui w)))) ->
  imageUrlError (ui (effects prev w)) = snd (validateImageURL (imageUrl (ui w))).
Proof.
  intros Ht Hm Hsame. rewrite effects_decompose.
  assert (H3 : effect_processImageFile prev (ui w)
                 (mkWorld (effect_imageUrlError prev (ui w)
                             (effect_validateURL prev (ui w) (ui w)))
                          (inflight w))
               = mkWorld (effect_imageUrlError prev (ui w)
                            (effect_validateURL prev (ui w) (ui w)))
                         (inflight w)).
  { unfold effect_processImageFile. rewrite Ht, Hm.
    destruct (_ || _); reflexivity. }
  rewrite H3. cbn [ui].
  assert (H1 : imageUrlError (effect_validateURL prev (ui w) (ui w))
               = imageUrlError (ui w)).
  { unfold effect_validateURL, validateURL. split_matches; reflexivity. }
  unfold effect_imageUrlError. rewrite Ht, Hm.
  destruct (negb (imageUrl prev =? imageUrl (ui w))%string
            || negb (InputType_eqb (inputType prev) image)
            || negb (ImageMode_eqb (imageMode prev) link)) eqn:Hdeps.
  - reflexivity.
  - rewrite H1.
    apply orb_false_elim in Hdeps. destruct Hdeps as [Hdeps H6].
    apply orb_false_elim in Hdeps. destruct Hdeps as [H4 H5].
    apply negb_false_iff in H4, H5, H6.
    apply String.eqb_eq in H4. apply InputType_eqb_eq in H5.
    apply ImageMode_eqb_eq in H6.
    apply Hsame; congruence.
Qed.

Lemma handle_imageUrlError ev w :
  rendered (ui w) ev = true ->
  (inputType (ui w) = image -> imageMode (ui w) = link ->
   imageUrlError (ui w) = snd (validateImageURL (imageUrl (ui w)))) ->
  inputType (ui (handle ev w)) = inputType (ui w) ->
  imageMode (ui (handle ev w)) = imageMode (ui w) ->
  imageUrl (ui (handle ev w)) = imageUrl (ui w) ->
  inputType (ui w) = image -> imageMode (ui w) = link ->
  imageUrlError (ui (handle ev w))
  = snd (validateImageURL (imageUrl (ui (handle ev w)))).
Proof.
  intros Hr Hw.
  by_handler ev; intros Ht Hm Hu Hi Hl; auto; try congruence.
  subst v. auto.
Qed.

(** *** Stable worlds *)

Lemma stable_initial : stable initialWorld.
Proof.
  constructor; cbn; try discriminate; try (intros; split; reflexivity).
Qed.

Lemma step_stable w ev : stable w -> stable (step w ev).
Proof.
  intros [H1 H2 H3 H4 H5 H6]. unfold step.
  destruct (rendered (ui w) ev) eqn:Hr; [|constructor; assumption].
  destruct (effects_keep_mode (ui w) (handle ev w)) as (Em & Et & Ei & Eu).
  constructor.
  - rewrite effects_keep_payload. apply handle_payload_fits, H1.
  - rewrite Em. intros Hm.
    destruct (effects_link_file (ui w) (handle ev w) Hm) as [-> ->].
    apply handle_link_has_no_file; assumption.
  - rewrite Em, Ei. intros Hm.
    rewrite (effects_embed_url (ui w) (handle ev w) Hm).
    apply handle_embed_has_no_url; assumption.
  - apply effects_compressing_awaited, handle_compressing_awaited, H4.
  - rewrite Et, Eu. intros Ht.
    apply effects_urlError; [exact Ht|].
    intros Hu Hi. rewrite handle_keeps_urlError, <- Hu.
    apply H5. congruence.
  - rewrite Et, Em, Ei. intros Ht Hm.
    apply effects_imageUrlError; [exact Ht | exact Hm |].
    intros Hu Hi Hmm.
    apply handle_imageUrlError; try assumption; congruence.
Qed.

Lemma run_snoc w evs ev : run w (evs ++ [ev]) = step (run w evs) ev.
Proof. unfold run. rewrite fold_left_app. reflexivity. Qed.

Lemma run_stable evs : stable (run initialWorld evs).
Proof.
  induction evs as [|ev evs IH] using rev_ind.
  - exact stable_initial.
  - rewrite run_snoc. apply step_stable, IH.
Qed.
End HookFacts.

Section StableTheorems.

Context {B : Browser}.
Variable qr_throws : string -> Options -> bool.

Abbreviation generateQRCode := (Page.generateQRCode qr_throws).

(** X13. Whatever the user has done since the page was opened, the stored
    embed payload measures at most 1000 bytes, and so does whatever
    [generateQRCode] encodes in embed mode. *)
Theorem stored_payload_fits_budget (evs : list Event) :
  let w := run initialWorld evs in
  getBase64PayloadBytes (embedDataUrl (ui w)) <= 1000
  /\ (forall canvasRef a content o,
        inputType (ui w) = image -> imageMode (ui w) = embed ->
        In a (generateQRCode (ui w) canvasRef) ->
        encoder_call a = Some (content, o) ->
        getBase64PayloadBytes content <= 1000).
Proof.
  intros w. pose proof (payload_fits w (run_stable evs)) as Hfit.
  split; [exact Hfit|].
  intros canvasRef a content o Ht Hm Hin Hcall.
  destruct (generateQRCode_call _ _ _ _ _ _ Hin Hcall) as (-> & _).
  unfold getQRContent. rewrite Ht, Hm. exact Hfit.
Qed.

(** X14. Whatever the user has done since the page was opened: in link
    mode no file is selected and no preview is kept, and in embed mode the
    image URL and its error are empty. *)
Theorem image_modes_keep_apart (evs : list Event) :
  let w := run initialWorld evs in
  (imageMode (ui w) = link ->
     imageFile (ui w) = None /\ imagePreview (ui w) = "")
  /\ (imageMode (ui w) = embed ->
     imageUrl (ui w) = "" /\ imageUrlError (ui w) = "").
Proof.
  intros w. destruct (run_stable evs) as [_ H2 H3 _ _ _]. split; assumption.
Qed.

(** X15. Whatever the user has done since the page was opened, the
    compressing flag is up only while a compression is awaited. *)
Theorem compressing_only_while_awaited (evs : list Event) :
  let w := run initialWorld evs in
  isCompressing (ui w) = true -> inflight w <> [].
Proof. intros w. apply (compressing_is_awaited w (run_stable evs)). Qed.

Lemma no_error_iff u :
  snd (validateImageURL u) = "" <-> trim u = "" \/ parsesAsURL u = true.
Proof.
  unfold validateImageURL.
  destruct (truthy (trim u)) eqn:Hb; cbn [negb].
  - destruct (parsesAsURL u); cbn [snd]; split; auto; try discriminate.
    intros [E | E]; [rewrite E in Hb|]; discriminate.
  - cbn [snd]. apply truthy_false in Hb. split; auto.
Qed.

(** X16. Between two events the error texts agree with the inputs.  In URL
    mode the error is empty exactly when the input is blank or [new URL]
    accepts it, and nothing is valid while it is shown.  In image link
    mode the content is valid exactly when the image URL is not blank and
    [new URL] accepts it. *)
Theorem url_errors_follow_inputs (evs : list Event) :
  let w := run initialWorld evs in
  (inputType (ui w) = url ->
     (urlError (ui w) = ""
      <-> trim (urlContent (ui w)) = "" \/ parsesAsURL (urlContent (ui w)) = true)
     /\ (urlError (ui w) <> "" -> hasValidContent (ui w) = false))
  /\ (inputType (ui w) = image -> imageMode (ui w) = link ->
      (hasValidContent (ui w) = true
       <-> trim (imageUrl (ui w)) <> ""
           /\ parsesAsURL (imageUrl (ui w)) = true)).
Proof.
  intros w. destruct (run_stable evs) as [_ _ _ _ H5 H6]. fold w in H5, H6.
  split.
  - intros Ht. rewrite (H5 Ht). split; [apply no_error_iff|].
    intros Herr. unfold hasValidContent, isValidURL. rewrite Ht.
    rewrite strlen_positive.
    destruct (truthy (trim (urlContent (ui w)))) eqn:Hb; [|reflexivity].
    cbn [negb andb].
    destruct (parsesAsURL (urlContent (ui w))) eqn:Hp; [|reflexivity].
    exfalso. apply Herr, no_error_iff. auto.
  - intros Ht Hm. unfold hasValidContent. rewrite Ht, Hm, (H6 Ht Hm).
    rewrite strlen_positive.
    pose proof (no_error_iff (imageUrl (ui w))) as Hno.
    destruct (truthy (trim (imageUrl (ui w)))) eqn:Hb; cbn [andb].
    + assert (Hne : trim (imageUrl (ui w)) <> "")
        by (intros E; rewrite E in Hb; discriminate).
      destruct (snd (validateImageURL (imageUrl (ui w)))) eqn:Herr; cbn.
      * destruct (proj1 Hno eq_refl) as [E | E]; [congruence|].
        split; auto.
      * split; [discriminate|]. intros [_ Hp].
        assert (Hq : String a s = "") by (apply Hno; auto). discriminate Hq.
    + apply truthy_false in Hb. split; [discriminate|]. intros [Hne _].
      congruence.
Qed.

(** ** Choosing a file *)

Lemma effects_unchanged prev w :
  urlContent (ui w) = urlContent prev -> inputType (ui w) = inputType prev ->
  imageUrl (ui w) = imageUrl prev -> imageMode (ui w) = imageMode prev ->
  imageFile (ui w) = imageFile prev ->
  effects prev w = w.
Proof.
  intros E1 E2 E3 E4 E5. unfold effects. rewrite E1, E2, E3, E4, E5.
  rewrite !String.eqb_refl, InputType_eqb_refl, ImageMode_eqb_refl,
    same_imageFile_refl.
  reflexivity.
Qed.

Lemma rendered_file_input w file :
  rendered (ui w) (ChooseFile file) = true ->
  inputType (ui w) = image /\ imageMode (ui w) = embed.
Proof.
  cbn [rendered]. intros H. apply andb_prop in H. destruct H as [Ht Hm].
  split; [apply InputType_eqb_eq, Ht | apply ImageMode_eqb_eq, Hm].
Qed.

(** X17. A file that is not of an image type, or is larger than five
    megabytes, is turned down before any compression: choosing it starts
    nothing, leaves the selected file, the preview and the payload as they
    were, shows an error and makes the content invalid.  Dropping a file
    that is not of an image type does nothing at all. *)
Theorem turned_down_file_starts_nothing w file :
  rendered (ui w) (ChooseFile file) = true ->
  (turned_down file = true ->
   let w' := step w (ChooseFile file) in
   inflight w' = inflight w
   /\ imageFile (ui w') = imageFile (ui w)
   /\ imagePreview (ui w') = imagePreview (ui w)
   /\ embedDataUrl (ui w') = embedDataUrl (ui w)
   /\ isCompressing (ui w') = false
   /\ imageFileError (ui w') <> ""
   /\ hasValidContent (ui w') = false)
  /\ (startsWith (file_type file) "image/" = false ->
      step w (DropFile file) = w).
Proof.
  intros Hr. destruct (rendered_file_input w file Hr) as [Ht Hm]. split.
  - intros Hdown w'. subst w'. unfold step. rewrite Hr. cbn [handle].
    unfold turned_down in Hdown. unfold processImageFile.
    destruct (negb (startsWith (file_type file) "image/")) eqn:Htype.
    + rewrite effects_unchanged by reflexivity. cbn.
      repeat split; try discriminate.
      unfold hasValidContent. cbn. rewrite Ht, Hm. apply andb_false_r.
    + cbn [orb] in Hdown. rewrite Hdown.
      rewrite effects_unchanged by reflexivity. cbn.
      repeat split; try discriminate.
      unfold hasValidContent. cbn. rewrite Ht, Hm. apply andb_false_r.
  - intros Htype. unfold step.
    assert (Hr' : rendered (ui w) (DropFile file) = true) by exact Hr.
    rewrite Hr'. cbn [handle]. rewrite Htype. apply effects_same.
Qed.

Lemma processImageFile_accepts closure file w :
  turned_down file = false -> imageMode closure = embed ->
  processImageFile closure file w
  = mkWorld (setIsCompressing true
               (setImageFile (Some file)
                  (setImagePreview (createObjectURL file)
                     (setIsCompressing false (setImageFileError "" (ui w))))))
            (inflight w ++ [file]).
Proof.
  intros Hok Hm. unfold turned_down in Hok. apply orb_false_elim in Hok.
  destruct Hok as [Htype Hsize]. unfold processImageFile.
  rewrite Htype, Hsize, Hm. reflexivity.
Qed.

Lemma compressing_is_invalid s :
  inputType s = image -> imageMode s = embed -> isCompressing s = true ->
  hasValidContent s = false.
Proof.
  intros Ht Hm Hc. unfold hasValidContent. rewrite Ht, Hm, Hc.
  cbn [negb]. rewrite andb_false_r. reflexivity.
Qed.

(** X18. Choosing an image file of at most five megabytes in embed mode
    selects it, shows its preview, raises the compressing flag and makes
    the content invalid until a compression settles.  It starts one
    compression, and a second one of the same file when the file is not
    the one already selected and no payload is stored. *)
Theorem chosen_file_is_compressed w file :
  rendered (ui w) (ChooseFile file) = true ->
  turned_down file = false ->
  let w' := step w (ChooseFile file) in
  imageFile (ui w') = Some file
  /\ imagePreview (ui w') = createObjectURL file
  /\ isCompressing (ui w') = true
  /\ imageFileError (ui w') = ""
  /\ embedDataUrl (ui w') = embedDataUrl (ui w)
  /\ hasValidContent (ui w') = false
  /\ inflight w'
     = (inflight w
        ++ if negb (same_imageFile (imageFile (ui w)) (Some file))
              && negb (truthy (embedDataUrl (ui w)))
           then [file; file] else [file])%list.
Proof.
  intros Hr Hok w'. subst w'.
  destruct (rendered_file_input w file Hr) as [Ht Hm].
  unfold step. rewrite Hr. cbn [handle].
  rewrite (processImageFile_accepts (ui w) file w Hok Hm).
  remember (setIsCompressing true
              (setImageFile (Some file)
                 (setImagePreview (createObjectURL file)
                    (setIsCompressing false (setImageFileError "" (ui w))))))
    as s2 eqn:Es2.
  assert (F1 : urlContent s2 = urlContent (ui w)) by (subst s2; reflexivity).
  assert (F2 : inputType s2 = image) by (subst s2; exact Ht).
  assert (F3 : imageUrl s2 = imageUrl (ui w)) by (subst s2; reflexivity).
  assert (F4 : imageMode s2 = embed) by (subst s2; exact Hm).
  assert (F5 : imageFile s2 = Some file) by (subst s2; reflexivity).
  assert (F6 : embedDataUrl s2 = embedDataUrl (ui w)) by (subst s2; reflexivity).
  assert (F7 : imagePreview s2 = createObjectURL file) by (subst s2; reflexivity).
  assert (F8 : isCompressing s2 = true) by (subst s2; reflexivity).
  assert (F9 : imageFileError s2 = "") by (subst s2; reflexivity).
  assert (Hinv : hasValidContent s2 = false)
    by (apply compressing_is_invalid; assumption).
  rewrite effects_decompose. cbn [ui inflight].
  unfold effect_validateURL, effect_imageUrlError, effect_processImageFile.
  rewrite F1, F2, F3, F4, F5, F6, Ht, Hm.
  rewrite !String.eqb_refl. cbn [negb orb InputType_eqb ImageMode_eqb].
  destruct (same_imageFile (imageFile (ui w)) (Some file)); cbn [negb andb];
    [cbn [ui inflight]; repeat split; assumption|].
  destruct (truthy (embedDataUrl (ui w))); cbn [negb];
    [cbn [ui inflight]; repeat split; assumption|].
  rewrite (processImageFile_accepts s2 file _ Hok F4). cbn [ui inflight].
  rewrite <- app_assoc.
  split; [reflexivity|]. split; [reflexivity|]. split; [reflexivity|].
  split; [reflexivity|]. split; [exact F6|]. split; [|reflexivity].
  apply compressing_is_invalid; [exact F2 | exact F4 | reflexivity].
Qed.

End StableTheorems.

(** ** Export and render side by side *)

Section ExportTheorems.

Context {B : Browser}.
Variable qr_throws : string -> Options -> bool.

Abbreviation generateQRCode := (Page.generateQRCode qr_throws).
Abbreviation downloadQRCode := (Page.downloadQRCode qr_throws).

Lemma downloadQRCode_options s canvasRef a content o :
  In a (downloadQRCode s canvasRef) -> encoder_call a = Some (content, o) ->
  opt_width o = exportResolution s /\ opt_margin o = 2
  /\ color_dark o = qrColor s /\ color_light o = bgColor s
  /\ (opt_type o = Some "svg" <-> exportFormat s = svg).
Proof.
  unfold Page.downloadQRCode.
  destruct (qrCodeGenerated s); simpl; [|intuition (subst; discriminate)].
  destruct (truthy (getQRContent s)); simpl; [|intros []].
  destruct (exportFormat s).
  - destruct canvasRef as [c|]; [|intros []].
    destruct (exportResolution s =? qrSize s); simpl.
    + intuition (subst; discriminate).
    + destruct (qr_throws _ _); simpl;
        intros [<- | H]; simpl;
        try (intros [= <- <-]; simpl; repeat split; discriminate);
        intuition (subst; discriminate).
  - destruct canvasRef as [c|]; [|intros []].
    destruct (qr_throws _ _); simpl;
      intros [<- | H]; simpl;
      try (intros [= <- <-]; simpl; repeat split; discriminate);
      intuition (subst; discriminate).
  - destruct (qr_throws _ _); simpl;
      intros [<- | H]; simpl;
      try (intros [= <- <-]; simpl; repeat split; reflexivity);
      intuition (subst; discriminate).
Qed.

Lemma generateQRCode_options s canvasRef a content o :
  In a (generateQRCode s canvasRef) -> encoder_call a = Some (content, o) ->
  opt_width o = qrSize s /\ opt_margin o = 2
  /\ color_dark o = qrColor s /\ color_light o = bgColor s
  /\ opt_type o = None.
Proof.
  unfold Page.generateQRCode.
  destruct (negb (truthy (getQRContent s)) || negb (hasValidContent s)).
  - destruct canvasRef as [c|]; [destruct (canvas_2d c)|]; simpl;
      intuition (subst; discriminate).
  - destruct canvasRef as [c|]; [|intros []].
    destruct (qr_throws _ _); simpl;
      intros [<- | [<- | []]]; simpl; try discriminate;
      intros [= <- <-]; simpl; repeat split.
Qed.

(** X19. An export encodes what the screen shows: an encoder call of
    [downloadQRCode] and one of [generateQRCode] on the same state have
    the same content, colours, margin (2) and error-correction level; the
    on-screen call is at [qrSize], the export call at
    [exportResolution]. *)
Theorem export_agrees_with_render s canvasRef a1 content1 o1 a2 content2 o2 :
  In a1 (generateQRCode s canvasRef) -> encoder_call a1 = Some (content1, o1) ->
  In a2 (downloadQRCode s canvasRef) -> encoder_call a2 = Some (content2, o2) ->
  content2 = content1
  /\ color_dark o2 = color_dark o1 /\ color_light o2 = color_light o1
  /\ opt_margin o2 = 2 /\ opt_margin o1 = 2
  /\ opt_errorCorrectionLevel o2 = opt_errorCorrectionLevel o1
  /\ opt_width o1 = qrSize s /\ opt_width o2 = exportResolution s.
Proof.
  intros Hin1 Hc1 Hin2 Hc2.
  destruct (generateQRCode_call _ _ _ _ _ _ Hin1 Hc1) as (E1 & _ & _ & L1).
  destruct (downloadQRCode_call _ _ _ _ _ _ Hin2 Hc2) as (E2 & L2).
  destruct (generateQRCode_options _ _ _ _ _ Hin1 Hc1) as (W1 & M1 & D1 & G1 & _).
  destruct (downloadQRCode_options _ _ _ _ _ Hin2 Hc2) as (W2 & M2 & D2 & G2 & _).
  repeat split; congruence.
Qed.

End ExportTheorems.

(* ================================================================= *)
(** * The further properties in the small browsers *)

Section MoreInTheSmallBrowser.

#[local] Existing Instance Demo.browser.

Abbreviation generateQRCode := (Page.generateQRCode Demo.never_throws).
Abbreviation downloadQRCode := (Page.downloadQRCode Demo.never_throws).

(** A 40 by 40 image: call 11 opens the second sweep at 36 by 36. *)
Lemma compress_calls_are_scheduled_witness :
  exists calls p v,
    @compressImageToSize Demo.browser (40, 40)%N 1000 = Some (calls, p)
    /\ nth_error calls 11 = Some v
    /\ attempts v = 11 /\ quality v = 0.5%float
    /\ width v = 36 /\ height v = 36.
Proof.
  destruct (@compressImageToSize Demo.browser (40, 40)%N 1000)
    as [[calls p]|] eqn:Hrun; [|vm_compute in Hrun; discriminate].
  destruct (nth_error calls 11) as [v|] eqn:Hv.
  - exists calls, p, v. split; [reflexivity|]. split; [exact Hv|].
    exact (@compress_calls_are_scheduled Demo.browser (40, 40)%N (40, 40)%N 1000
             calls p 11 v eq_refl Hrun Hv).
  - exfalso. vm_compute in Hrun. injection Hrun as <- _. discriminate Hv.
Defined.

Lemma compress_loop_first_fit_witness :
  exists calls p last,
    @compress_loop Demo.browser (40, 40)%N 1000 50
      (@initial Demo.browser (40, 40)%N) = Some (calls, p)
    /\ nth_error calls (List.length calls - 1) = Some last
    /\ (forall i a, (i < List.length calls - 1)%nat ->
          nth_error calls i = Some a -> @payloadAt Demo.browser (40, 40)%N a > 1000).
Proof.
  destruct (@compress_loop Demo.browser (40, 40)%N 1000 50
              (@initial Demo.browser (40, 40)%N))
    as [[calls p]|] eqn:Hrun; [|vm_compute in Hrun; discriminate].
  destruct (@compress_loop_first_fit Demo.browser (40, 40)%N 1000 50 calls p
              Hrun) as (last & Hlast & Hbefore & _).
  exists calls, p, last. auto.
Defined.

Lemma wide_image_rejected_after_50_calls_witness :
  exists calls e,
    @compress_loop Demo.browser (60, 60)%N 1000 50
      (@initial Demo.browser (60, 60)%N)
    = Some (calls, Rejected e)
    /\ List.length calls = 50%nat.
Proof.
  destruct (@compress_loop Demo.browser (60, 60)%N 1000 50
              (@initial Demo.browser (60, 60)%N))
    as [[calls [d | e |]]|] eqn:Hrun;
    try (exfalso; vm_compute in Hrun; discriminate Hrun).
  exists calls, e. split; [reflexivity|].
  apply (@wide_image_rejected_after_50_calls Demo.browser (60, 60)%N 1000
           calls e);
    [vm_compute; discriminate | exact Hrun].
Defined.

Lemma compress_calls_within_range_witness :
  exists calls p v,
    @compress_loop Demo.browser (40, 40)%N 1000 50
      (@initial Demo.browser (40, 40)%N) = Some (calls, p)
    /\ nth_error calls 11 = Some v
    /\ 24 <= width v <= 40 /\ 24 <= height v <= 40.
Proof.
  destruct (@compress_loop Demo.browser (40, 40)%N 1000 50
              (@initial Demo.browser (40, 40)%N))
    as [[calls p]|] eqn:Hrun; [|vm_compute in Hrun; discriminate].
  destruct (nth_error calls 11) as [v|] eqn:Hv.
  - exists calls, p, v. split; [reflexivity|]. split; [exact Hv|].
    destruct (@compress_calls_within_range Demo.browser (40, 40)%N 1000 50
                calls p 11 v Hrun Hv) as (Hw & Hh & _).
    split; [exact Hw | exact Hh].
  - exfalso. vm_compute in Hrun. injection Hrun as <- _. discriminate Hv.
Defined.

Lemma generateVCard_line_count_witness :
  List.length (lines (generateVCard (mkContactInfo "Ada" "" "ada@example.org" "")))
  = 5%nat.
Proof.
  apply (generateVCard_line_count (mkContactInfo "Ada" "" "ada@example.org" ""));
    reflexivity.
Defined.

Lemma generateVCard_injective_witness :
  mkContactInfo "Ada" "" "" "ACME" = mkContactInfo "Ada" "" "" "ACME".
Proof.
  apply generateVCard_injective; reflexivity.
Defined.

Lemma generateQRCode_encodes_iff_valid_witness :
  exists o rest,
    generateQRCode (setTextContent "Hello" initialState) (Some Demo.canvas)
    = QRCode_toCanvas true "Hello" o :: rest
    /\ opt_width o = 300 /\ no_encoder_call rest.
Proof.
  apply (proj1 (generateQRCode_encodes_iff_valid Demo.never_throws
                  (setTextContent "Hello" initialState) (Some Demo.canvas)));
    [reflexivity | discriminate].
Defined.

Lemma url_mode_encodes_parsed_input_witness :
  let s := setUrlContent "https://example.org  " (setInputType url initialState) in
  let o := mkOptions None 300 2 M "#000000" "#ffffff" in
  parsesAsURL (urlContent s) = true
  /\ "https://example.org" = trim (urlContent s)
  /\ "https://example.org" <> "".
Proof.
  intros s o.
  apply (url_mode_encodes_parsed_input Demo.never_throws s (Some Demo.canvas)
           (QRCode_toCanvas true "https://example.org" o) _ o);
    [reflexivity | left; reflexivity | reflexivity].
Defined.

Lemma downloadQRCode_saves_only_generated_witness :
  qrCodeGenerated Uploads.shown_at_200 = true
  /\ getQRContent Uploads.shown_at_200 <> ""
  /\ "qrcode.png" = filename (exportFormat Uploads.shown_at_200).
Proof.
  destruct (downloadQRCode_saves_only_generated Demo.never_throws Uploads.shown_at_200
              (Some Demo.canvas) "qrcode.png") as (H1 & H2 & H3 & _).
  - right. left. reflexivity.
  - auto.
Defined.

Lemma export_agrees_with_render_witness :
  let o1 := mkOptions None 200 2 M "#000000" "#ffffff" in
  let o2 := mkOptions None 300 2 M "#000000" "#ffffff" in
  opt_width o1 = qrSize Uploads.shown_at_200
  /\ opt_width o2 = exportResolution Uploads.shown_at_200.
Proof.
  intros o1 o2.
  destruct (export_agrees_with_render Demo.never_throws Uploads.shown_at_200
              (Some Demo.canvas)
              (QRCode_toCanvas true "Hello" o1) "Hello" o1
              (QRCode_toCanvas false "Hello" o2) "Hello" o2)
    as (_ & _ & _ & _ & _ & _ & H1 & H2);
    [left; reflexivity | reflexivity | left; reflexivity | reflexivity |].
  split; assumption.
Defined.

Lemma stored_payload_fits_budget_witness :
  let w := run initialWorld
             [ClickType image; ClickEmbedMode; @ChooseFile Demo.browser Demo.icon;
              Settles 0] in
  getBase64PayloadBytes (embedDataUrl (ui w)) <= 1000.
Proof.
  exact (proj1 (@stored_payload_fits_budget Demo.browser Demo.never_throws
                  [ClickType image; ClickEmbedMode;
                   @ChooseFile Demo.browser Demo.icon; Settles 0])).
Defined.

Lemma image_modes_keep_apart_witness :
  imageUrl (ui Demo.icon_chosen) = ""
  /\ imageUrlError (ui Demo.icon_chosen) = "".
Proof.
  apply (proj2 (@image_modes_keep_apart Demo.browser
                  [ClickType image; ClickEmbedMode;
                   @ChooseFile Demo.browser Demo.icon])).
  reflexivity.
Defined.

Lemma compressing_only_while_awaited_witness :
  inflight Demo.icon_chosen <> [].
Proof.
  apply (@compressing_only_while_awaited Demo.browser
           [ClickType image; ClickEmbedMode; @ChooseFile Demo.browser Demo.icon]).
  reflexivity.
Defined.

Lemma url_errors_follow_inputs_witness :
  let w := run initialWorld [ClickType url; ChangeUrl "not a url"] in
  urlError (ui w) = "Please enter a valid URL"
  /\ hasValidContent (ui w) = false.
Proof.
  intros w. split; [reflexivity|].
  apply (proj1 (url_errors_follow_inputs [ClickType url; ChangeUrl "not a url"]));
    [reflexivity | discriminate].
Defined.

Lemma chosen_file_is_compressed_witness :
  let w := run initialWorld [ClickType image; ClickEmbedMode] in
  let w' := step w (@ChooseFile Demo.browser Demo.icon) in
  isCompressing (ui w') = true
  /\ hasValidContent (ui w') = false
  /\ inflight w' = [Demo.icon; Demo.icon].
Proof.
  intros w w'.
  destruct (@chosen_file_is_compressed Demo.browser w Demo.icon)
    as (_ & _ & H3 & _ & _ & H6 & H7); [reflexivity | reflexivity |].
  split; [exact H3|]. split; [exact H6 | exact H7].
Defined.

End MoreInTheSmallBrowser.

Section InTheUploadsBrowser.

#[local] Existing Instance Uploads.browser.

Lemma turned_down_file_starts_nothing_witness :
  let w' := step Uploads.embed_picked
              (@ChooseFile Uploads.browser Uploads.notes) in
  let w'' := step Uploads.embed_picked
               (@ChooseFile Uploads.browser Uploads.poster) in
  inflight w' = [] /\ imageFile (ui w') = None
  /\ imageFileError (ui w') = "Please select an image file"
  /\ hasValidContent (ui w') = false
  /\ inflight w'' = []
  /\ imageFileError (ui w'') = "Image must be smaller than 5MB"
  /\ step Uploads.embed_picked (@DropFile Uploads.browser Uploads.notes)
     = Uploads.embed_picked.
Proof.
  intros w' w''.
  destruct (@turned_down_file_starts_nothing Uploads.browser
              Uploads.embed_picked Uploads.notes eq_refl) as [Hdown Hdrop].
  destruct (Hdown eq_refl) as (H1 & H2 & _ & _ & _ & _ & H7).
  destruct (@turned_down_file_starts_nothing Uploads.browser
              Uploads.embed_picked Uploads.poster eq_refl) as [Hdown' _].
  destruct (Hdown' eq_refl) as (H1' & _).
  split; [exact H1|]. split; [exact H2|]. split; [reflexivity|].
  split; [exact H7|]. split; [exact H1'|]. split; [reflexivity|].
  apply Hdrop. reflexivity.
Defined.

End InTheUploadsBrowser.

(* ================================================================= *)
(** * What the render hook encodes *)

Import Commit.

Section RenderHookFacts.

Context {B : Browser}.
Variable qr_throws : string -> Options -> bool.

(** The hooks of [effects] write no dependency of the render hook: the
    second render of an event never runs it. *)
Lemma effects_keep_render_deps prev w :
  render_deps_changed false (ui w) (ui (effects prev w)) = false.
Proof.
  assert (H : textContent (ui (effects prev w)) = textContent (ui w)
              /\ urlContent (ui (effects prev w)) = urlContent (ui w)
              /\ imageUrl (ui (effects prev w)) = imageUrl (ui w)
              /\ embedDataUrl (ui (effects prev w)) = embedDataUrl (ui w)
              /\ qrColor (ui (effects prev w)) = qrColor (ui w)
              /\ bgColor (ui (effects prev w)) = bgColor (ui w)
              /\ qrSize (ui (effects prev w)) = qrSize (ui w)
              /\ inputType (ui (effects prev w)) = inputType (ui w)
              /\ imageMode (ui (effects prev w)) = imageMode (ui w)).
  { rewrite effects_decompose.
    unfold effect_processImageFile, effect_imageUrlError, effect_validateURL,
      processImageFile, validateURL.
    cbn [ui inflight].
    repeat match goal with
           | |- context [match ?x with _ => _ end] => destruct x eqn:?
           end; cbn; repeat split; congruence. }
  unfold render_deps_changed.
  destruct H as (-> & -> & -> & -> & -> & -> & -> & -> & ->).
  rewrite !String.eqb_refl, Z.eqb_refl, InputType_eqb_refl, ImageMode_eqb_refl.
  reflexivity.
Qed.

Lemma render_after_once w ev canvasRef :
  rendered (ui w) ev = true ->
  render_after qr_throws w ev canvasRef
  = if render_deps_changed (replaces_contactInfo ev) (ui w) (ui (handle ev w))
    then generateQRCode qr_throws (ui (handle ev w)) canvasRef else [].
Proof.
  intros Hr. unfold render_after. rewrite Hr.
  rewrite (effects_keep_render_deps (ui w) (handle ev w)).
  apply app_nil_r.
Qed.

(** In image link mode the render hook judges the new image URL by the
    error text stored for the old one: with no error stored, whatever is
    typed and is not blank is encoded, whether [new URL] accepts it or
    not; the error text follows only afterwards. *)
Lemma image_link_render_reads_stored_error w v c :
  inputType (ui w) = image -> imageMode (ui w) = link ->
  imageUrlError (ui w) = "" -> imageUrl (ui w) <> v -> trim v <> "" ->
  let o := mkOptions None (qrSize (ui w)) 2 M (qrColor (ui w)) (bgColor (ui w)) in
  render_after qr_throws w (ChangeImageUrl v) (Some c)
  = QRCode_toCanvas true (trim v) o ::
    (if qr_throws (trim v) o then [toast "Generation Failed"]
     else [setQrCodeGenerated_to true])
  /\ imageUrlError (ui (step w (ChangeImageUrl v))) = snd (validateImageURL v).
Proof.
  intros Ht Hm Herr Hv Hne o.
  assert (Hr : rendered (ui w) (ChangeImageUrl v) = true)
    by (cbn [rendered]; rewrite Ht, Hm; reflexivity).
  split.
  - rewrite (render_after_once w _ _ Hr). cbn [handle ui replaces_contactInfo].
    assert (Hdeps : render_deps_changed false (ui w) (setImageUrl v (ui w)) = true).
    { unfold render_deps_changed.
      replace (imageUrl (setImageUrl v (ui w))) with v by reflexivity.
      destruct (String.eqb_spec (imageUrl (ui w)) v) as [E | _]; [congruence|].
      cbn [negb]. rewrite !orb_true_r. reflexivity. }
    rewrite Hdeps. unfold Page.generateQRCode.
    assert (Hc : getQRContent (setImageUrl v (ui w)) = trim v)
      by (unfold getQRContent; cbn -[trim]; rewrite Ht, Hm; reflexivity).
    assert (Htruthy : truthy (trim v) = true)
      by (destruct (trim v); [congruence | reflexivity]).
    assert (Hvalid : hasValidContent (setImageUrl v (ui w)) = true).
    { unfold hasValidContent. cbn -[trim]. rewrite Ht, Hm, Herr, strlen_positive.
      rewrite Htruthy. reflexivity. }
    rewrite Hc, Hvalid, Htruthy. cbn -[trim]. rewrite Ht, Hm. reflexivity.
  - unfold step. rewrite Hr. cbn [handle].
    apply (effects_imageUrlError (ui w) (mkWorld (setImageUrl v (ui w)) (inflight w)));
      [exact Ht | exact Hm |].
    intros E. cbn in E. congruence.
Qed.

End RenderHookFacts.

(** C7. The render hook does encode invalid content in image link mode.
    On the page with the image type selected (link mode, empty image URL,
    no error), typing "not a url", which [validateImageURL] refuses, makes
    the render hook call the encoder on "not a url": [hasValidContent]
    reads the error text stored for the empty URL.  The error text is set
    only afterwards, the content is then invalid, and the render hook does
    not run again, so nothing is cleared.  In URL mode the same input is
    not encoded and the canvas is cleared: there [hasValidContent] calls
    [isValidURL] itself. *)
Theorem invalid_image_url_is_encoded :
  let w := @run Demo.browser initialWorld [ClickType image] in
  let ev := @ChangeImageUrl Demo.browser "not a url" in
  let o := mkOptions None 300 2 M "#000000" "#ffffff" in
  (inputType (ui w) = image /\ imageMode (ui w) = link
   /\ imageUrl (ui w) = "" /\ imageUrlError (ui w) = "")
  /\ @validateImageURL Demo.browser "not a url"
     = (false, "Please enter a valid URL")
  /\ render_after Demo.never_throws w ev (Some Demo.canvas)
     = [QRCode_toCanvas true "not a url" o; setQrCodeGenerated_to true]
  /\ (imageUrlError (ui (step w ev)) = "Please enter a valid URL"
      /\ hasValidContent (ui (step w ev)) = false
      /\ render_deps_changed false (ui (handle ev w)) (ui (step w ev)) = false)
  /\ render_after Demo.never_throws
       (@run Demo.browser initialWorld [ClickType url])
       (@ChangeUrl Demo.browser "not a url") (Some Demo.canvas)
     = [setQrCodeGenerated_to false; clearRect 0 0 300 300].
Proof. repeat split. Qed.
